(** * ai-notes-summarizer: the record access layer, embedded and verified

    The development follows the two source files that carry behaviour:
    - [src/db/tables.ts]: the three tables [NotesDocuments], [NoteSummaries]
      and [SummaryJobs];
    - the action module ([server = { createDocument, ... , listJobs }]):
      ten handlers, each a short sequence of statements against the store.

    The relational store is modelled as three lists of rows, with what
    the store itself enforces and refuses: the integer primary key it hands
    out, the references [tables.ts] declares, and the integers its client
    will not turn into numbers. A handler is a function from the store to
    a result and the store after the handler ran (a throw keeps whatever
    the statements before it did). *)

From stdpp Require Import base numbers list strings gmap.

Open Scope Z_scope.

(* ------------------------------------------------------------------ *)
(** * Column types *)
(* ------------------------------------------------------------------ *)

(** [column.text({ enum: ["manual", "upload", "web", "other"] })] *)
Inductive SourceType := manual | upload | web | other.

(** [enum: ["short", "detailed", "bullet_points", "key_points", "action_items"]] *)
Inductive SummaryType := short | detailed | bullet_points | key_points | action_items.

(** [enum: ["summary", "key_points", "action_items", "rewrite", "other"]] *)
Inductive JobType := job_summary | job_key_points | job_action_items | job_rewrite | job_other.

(** [enum: ["pending", "completed", "failed"]] *)
Inductive JobStatus := pending | completed | failed.

#[global] Instance JobStatus_eq_dec : EqDecision JobStatus.
Proof. solve_decision. Defined.

(** [column.json]: a structured value the handlers never look into. *)
#[local] Unset Elimination Schemes.
Inductive Json :=
| JNull
| JBool (b : bool)
| JNum (n : Z)
| JStr (s : string)
| JArr (items : list Json)
| JObj (members : list (string * Json)).
#[local] Set Elimination Schemes.

(** [column.date]: milliseconds since the epoch. *)
Definition Date := Z.

(** [column.number]: the column has integer affinity. A whole number
    within 64 bits is kept as an integer, and the client hands an integer
    out as a number only if it is a safe one (below 2^53 in size), else it
    throws [RangeError]. A number beyond 64 bits is kept as a float and
    read back as it is. *)
Definition safe_integer (n : Z) : bool := bool_decide (- 2 ^ 53 < n < 2 ^ 53).

Definition kept_as_integer (n : Z) : bool := bool_decide (- 2 ^ 63 < n < 2 ^ 63).

Definition readable_number (n : Z) : bool := safe_integer n || negb (kept_as_integer n).

(* ------------------------------------------------------------------ *)
(** * Rows of the three tables *)
(* ------------------------------------------------------------------ *)

Record NotesDocument := {
  doc_id : Z;
  doc_ownerId : string;
  doc_title : string;
  doc_content : string;
  doc_sourceType : SourceType;
  doc_sourceMeta : option Json;
  doc_tags : option string;
  doc_createdAt : Date;
  doc_updatedAt : Date;
}.

Record NoteSummary := {
  sum_id : Z;
  sum_documentId : Z;
  sum_ownerId : string;
  sum_summaryType : SummaryType;
  sum_content : string;
  sum_originalLength : option Z;
  sum_summaryLength : option Z;
  sum_meta : option Json;
  sum_createdAt : Date;
}.

Record SummaryJob := {
  job_id : Z;
  job_documentId : option Z;
  job_ownerId : string;
  job_jobType : JobType;
  job_input : option Json;
  job_output : option Json;
  job_status : JobStatus;
  job_createdAt : Date;
}.

(** Every table has the primary key [id] and the column [ownerId].
    [row_numbers] are the integer columns a caller fills in freely; the
    ids are handed out by the store, counting from 1, and a [documentId]
    is stored only if it is one of them. *)
Class Row (R : Type) := {
  row_id : R → Z;
  row_ownerId : R → string;
  row_numbers : R → list Z;
}.

#[global] Instance NotesDocument_Row : Row NotesDocument :=
  {| row_id := doc_id; row_ownerId := doc_ownerId; row_numbers := λ _, [] |}.
#[global] Instance NoteSummary_Row : Row NoteSummary :=
  {| row_id := sum_id; row_ownerId := sum_ownerId;
     row_numbers := λ s, option_list (sum_originalLength s)
                         ++ option_list (sum_summaryLength s) |}.
#[global] Instance SummaryJob_Row : Row SummaryJob :=
  {| row_id := job_id; row_ownerId := job_ownerId; row_numbers := λ _, [] |}.

(** A row the client can hand to the handler. *)
Definition readable {R} `{Row R} (r : R) : bool :=
  forallb readable_number (row_numbers r).

(* ------------------------------------------------------------------ *)
(** * The store *)
(* ------------------------------------------------------------------ *)

(** A table: its rows in insertion order. *)
Record Table (R : Type) := MkTable {
  rows : list R;
}.
Arguments MkTable {R} _.
Arguments rows {R} _.

Record Db := MkDb {
  NotesDocuments : Table NotesDocument;
  NoteSummaries : Table NoteSummary;
  SummaryJobs : Table SummaryJob;
}.

Definition empty_table {R} : Table R := MkTable [].
Definition empty_db : Db := MkDb empty_table empty_table empty_table.

(** A table name as the statements use it: how to read the table out of
    the store and how to put a new version of it back, and the references
    of [tables.ts]: [references db r] says that the row [r] refers to is
    in the store, [referenced db r] that a row of another table refers to
    [r]. *)
Record TableRef (R : Type) := MkRef {
  get_table : Db → Table R;
  set_table : Table R → Db → Db;
  references : Db → R → bool;
  referenced : Db → R → bool;
}.
Arguments get_table {R} _ _.
Arguments set_table {R} _ _ _.
Arguments references {R} _ _ _.
Arguments referenced {R} _ _ _.

(** [references: () => NotesDocuments.columns.id]; a [null] refers to
    nothing. *)
Definition document_exists (db : Db) (documentId : option Z) : bool :=
  match documentId with
  | Some id => bool_decide (id ∈ doc_id <$> rows (NotesDocuments db))
  | None => true
  end.

Definition NotesDocumentsT : TableRef NotesDocument :=
  {| get_table := NotesDocuments;
     set_table := λ t db, MkDb t (NoteSummaries db) (SummaryJobs db);
     references := λ _ _, true;
     referenced := λ db d,
       bool_decide (doc_id d ∈ sum_documentId <$> rows (NoteSummaries db))
       || bool_decide (Some (doc_id d) ∈ job_documentId <$> rows (SummaryJobs db)) |}.
Definition NoteSummariesT : TableRef NoteSummary :=
  {| get_table := NoteSummaries;
     set_table := λ t db, MkDb (NotesDocuments db) t (SummaryJobs db);
     references := λ db s, document_exists db (Some (sum_documentId s));
     referenced := λ _ _, false |}.
Definition SummaryJobsT : TableRef SummaryJob :=
  {| get_table := SummaryJobs;
     set_table := λ t db, MkDb (NotesDocuments db) (NoteSummaries db) t;
     references := λ db j, document_exists db (job_documentId j);
     referenced := λ _ _, false |}.

(* ------------------------------------------------------------------ *)
(** * Handlers: state and throws *)
(* ------------------------------------------------------------------ *)

Inductive ErrorCode := UNAUTHORIZED | NOT_FOUND.

(** What the store and its client throw; no handler catches it. *)
Inductive Exception := SQLITE_CONSTRAINT_FOREIGNKEY | RangeError.

Inductive Result (A : Type) :=
| Ok (a : A)
| ActionError (code : ErrorCode) (message : string)
| Uncaught (e : Exception).
Arguments Ok {A} _.
Arguments ActionError {A} _ _.
Arguments Uncaught {A} _.

Definition Handler (A : Type) : Type := Db → Result A * Db.

Definition ret {A} (a : A) : Handler A := λ db, (Ok a, db).

Definition throw {A} (code : ErrorCode) (message : string) : Handler A :=
  λ db, (ActionError code message, db).

Definition bind {A B} (m : Handler A) (k : A → Handler B) : Handler B :=
  λ db, match m db with
        | (Ok a, db') => k a db'
        | (ActionError c msg, db') => (ActionError c msg, db')
        | (Uncaught e, db') => (Uncaught e, db')
        end.

Notation "'do' x <- m ;; k" := (bind m (λ x, k))
  (at level 10, x name, m at level 99, k at level 200).

(** ** Statements *)

(** The rows a statement hands back, through the client. *)
Definition returning {R} `{Row R} (l : list R) : Result (list R) :=
  if forallb readable l then Ok l else Uncaught RangeError.
Arguments returning : simpl never.

(** [db.select().from(T).where(P)] *)
Definition db_select {R} `{Row R} (T : TableRef R) (P : R → Prop)
    `{!∀ r, Decision (P r)} : Handler (list R) :=
  λ db, (returning (filter P (rows (get_table T db))), db).

(** The id of the next row: [id] is the integer primary key, so one more
    than the largest id in the table, and 1 in an empty table. *)
Definition next_id {R} `{Row R} (l : list R) : Z :=
  match row_id <$> l with
  | [] => 1
  | id :: ids => foldr Z.max id ids + 1
  end.

(** [db.insert(T).values(v).returning()]: the store refuses a row that
    refers to nothing; else the row is in, and then read back. *)
Definition db_insert {R} `{Row R} (T : TableRef R) (values : Z → R)
    : Handler (list R) :=
  λ db, let t := get_table T db in
        let row := values (next_id (rows t)) in
        if references T db row
        then (returning [row], set_table T (MkTable (rows t ++ [row])) db)
        else (Uncaught SQLITE_CONSTRAINT_FOREIGNKEY, db).

(** [db.update(T).set(f).where(P).returning()]. No [set] of the handlers
    names [id] or [documentId], so no reference is made or broken. *)
Definition db_update {R} `{Row R} (T : TableRef R) (set : R → R) (P : R → Prop)
    `{!∀ r, Decision (P r)} : Handler (list R) :=
  λ db, let t := get_table T db in
        (returning (set <$> filter P (rows t)),
         set_table T
           (MkTable ((λ r, if decide (P r) then set r else r) <$> rows t)) db).

(** [db.delete(T).where(P).returning()]: the store refuses to remove a
    row that is referred to, and then removes nothing. *)
Definition db_delete {R} `{Row R} (T : TableRef R) (P : R → Prop)
    `{!∀ r, Decision (P r)} : Handler (list R) :=
  λ db, let t := get_table T db in
        let matched := filter P (rows t) in
        if existsb (referenced T db) matched
        then (Uncaught SQLITE_CONSTRAINT_FOREIGNKEY, db)
        else (returning matched,
              set_table T (MkTable (filter (λ r, ¬ P r) (rows t))) db).

(** [.limit(1)] *)
Definition limit1 {R} (m : Handler (list R)) : Handler (list R) :=
  do l <- m ;; ret (take 1 l).

(** JavaScript truthiness of an optional number: [undefined], [null] and
    [0] are falsy. *)
Definition truthy (n : option Z) : bool :=
  match n with
  | Some n => bool_decide (n ≠ 0)
  | None => false
  end.

(* ------------------------------------------------------------------ *)
(** * The caller *)
(* ------------------------------------------------------------------ *)

Record User := { user_id : string }.
Record Locals := { user : option User }.
Record ActionAPIContext := { locals : option Locals }.

(** [requireUser]: [context.locals?.user], or UNAUTHORIZED. *)
Definition requireUser (context : ActionAPIContext) : Handler User :=
  match locals context ≫= user with
  | None => throw UNAUTHORIZED "You must be signed in to perform this action."
  | Some user => ret user
  end.

(** The context of a signed-in caller. *)
Definition signed_in (uid : string) : ActionAPIContext :=
  {| locals := Some {| user := Some {| user_id := uid |} |} |}.

(** Who a context speaks for, if anybody. *)
Definition caller (context : ActionAPIContext) : option string :=
  user_id <$> (locals context ≫= user).

(* ------------------------------------------------------------------ *)
(** * Documents *)
(* ------------------------------------------------------------------ *)

(** The inputs are the values the schemas let through; an optional key
    that is absent (or [undefined]) is [None]. *)
Record CreateDocumentInput := {
  cd_title : string;
  cd_content : string;
  cd_sourceType : option SourceType;
  cd_sourceMeta : option Json;
  cd_tags : option string;
}.

(** [new Date()] is read from the environment: each call site takes the
    instant it reads as an argument. *)
Definition createDocument (input : CreateDocumentInput) (now now' : Date)
    (context : ActionAPIContext) : Handler (option NotesDocument) :=
  do user <- requireUser context ;;
  do inserted <- db_insert NotesDocumentsT (λ id,
    {| doc_id := id;
       doc_ownerId := user_id user;
       doc_title := cd_title input;
       doc_content := cd_content input;
       doc_sourceType := default manual (cd_sourceType input);
       doc_sourceMeta := cd_sourceMeta input;
       doc_tags := cd_tags input;
       doc_createdAt := now;
       doc_updatedAt := now' |}) ;;
  ret (head inserted).

Record UpdateDocumentInput := {
  ud_id : Z;
  ud_title : option string;
  ud_content : option string;
  ud_sourceType : option SourceType;
  ud_sourceMeta : option Json;
  ud_tags : option string;
}.

(** One key of [updateData] with its value. *)
Inductive DocumentAssignment :=
| set_title (v : string)
| set_content (v : string)
| set_sourceType (v : SourceType)
| set_sourceMeta (v : Json)
| set_tags (v : string)
| set_updatedAt (v : Date).

(** [Object.entries(rest)]: every key of the input but [id]. *)
Definition ud_entries (input : UpdateDocumentInput) : list (option DocumentAssignment) :=
  [ set_title <$> ud_title input;
    set_content <$> ud_content input;
    set_sourceType <$> ud_sourceType input;
    set_sourceMeta <$> ud_sourceMeta input;
    set_tags <$> ud_tags input ].

Definition assign_document (d : NotesDocument) (a : DocumentAssignment) : NotesDocument :=
  match a with
  | set_title v =>
      {| doc_id := doc_id d; doc_ownerId := doc_ownerId d; doc_title := v;
         doc_content := doc_content d; doc_sourceType := doc_sourceType d;
         doc_sourceMeta := doc_sourceMeta d; doc_tags := doc_tags d;
         doc_createdAt := doc_createdAt d; doc_updatedAt := doc_updatedAt d |}
  | set_content v =>
      {| doc_id := doc_id d; doc_ownerId := doc_ownerId d; doc_title := doc_title d;
         doc_content := v; doc_sourceType := doc_sourceType d;
         doc_sourceMeta := doc_sourceMeta d; doc_tags := doc_tags d;
         doc_createdAt := doc_createdAt d; doc_updatedAt := doc_updatedAt d |}
  | set_sourceType v =>
      {| doc_id := doc_id d; doc_ownerId := doc_ownerId d; doc_title := doc_title d;
         doc_content := doc_content d; doc_sourceType := v;
         doc_sourceMeta := doc_sourceMeta d; doc_tags := doc_tags d;
         doc_createdAt := doc_createdAt d; doc_updatedAt := doc_updatedAt d |}
  | set_sourceMeta v =>
      {| doc_id := doc_id d; doc_ownerId := doc_ownerId d; doc_title := doc_title d;
         doc_content := doc_content d; doc_sourceType := doc_sourceType d;
         doc_sourceMeta := Some v; doc_tags := doc_tags d;
         doc_createdAt := doc_createdAt d; doc_updatedAt := doc_updatedAt d |}
  | set_tags v =>
      {| doc_id := doc_id d; doc_ownerId := doc_ownerId d; doc_title := doc_title d;
         doc_content := doc_content d; doc_sourceType := doc_sourceType d;
         doc_sourceMeta := doc_sourceMeta d; doc_tags := Some v;
         doc_createdAt := doc_createdAt d; doc_updatedAt := doc_updatedAt d |}
  | set_updatedAt v =>
      {| doc_id := doc_id d; doc_ownerId := doc_ownerId d; doc_title := doc_title d;
         doc_content := doc_content d; doc_sourceType := doc_sourceType d;
         doc_sourceMeta := doc_sourceMeta d; doc_tags := doc_tags d;
         doc_createdAt := doc_createdAt d; doc_updatedAt := v |}
  end.

(** [.set({ ... })]: the assignments, applied to a row in order. *)
Definition set_document (data : list DocumentAssignment) (d : NotesDocument) : NotesDocument :=
  foldl assign_document d data.

(** The loop over [Object.entries(rest)]: [updateData] gets the keys
    whose value is not [undefined]. *)
Definition ud_updateData (input : UpdateDocumentInput) : list DocumentAssignment :=
  omap (λ entry, entry) (ud_entries input).
Arguments ud_updateData : simpl never.

Definition updateDocument (input : UpdateDocumentInput) (now : Date)
    (context : ActionAPIContext) : Handler (option NotesDocument) :=
  do user <- requireUser context ;;
  let id := ud_id input in
  do found <- limit1 (db_select NotesDocumentsT
                     (λ d, doc_id d = id ∧ doc_ownerId d = user_id user)) ;;
  match head found with
  | None => throw NOT_FOUND "Document not found."
  | Some existing =>
      let updateData := ud_updateData input in
      if bool_decide (length updateData = 0%nat) then ret (Some existing)
      else
        do updated <- db_update NotesDocumentsT
                     (set_document (updateData ++ [set_updatedAt now]))
                     (λ d, doc_id d = id ∧ doc_ownerId d = user_id user) ;;
        ret (head updated)
  end.

Record DeleteDocumentInput := { dd_id : Z }.

Definition deleteDocument (input : DeleteDocumentInput)
    (context : ActionAPIContext) : Handler NotesDocument :=
  do user <- requireUser context ;;
  do removed <- db_delete NotesDocumentsT
               (λ d, doc_id d = dd_id input ∧ doc_ownerId d = user_id user) ;;
  match head removed with
  | None => throw NOT_FOUND "Document not found."
  | Some deleted => ret deleted
  end.

Definition listDocuments (context : ActionAPIContext) : Handler (list NotesDocument) :=
  do user <- requireUser context ;;
  db_select NotesDocumentsT (λ d, doc_ownerId d = user_id user).

Record GetDocumentInput := { gd_id : Z }.

Definition getDocumentWithSummaries (input : GetDocumentInput)
    (context : ActionAPIContext) : Handler (NotesDocument * list NoteSummary) :=
  do user <- requireUser context ;;
  do found <- limit1 (db_select NotesDocumentsT
                     (λ d, doc_id d = gd_id input ∧ doc_ownerId d = user_id user)) ;;
  match head found with
  | None => throw NOT_FOUND "Document not found."
  | Some document =>
      do summaries <- db_select NoteSummariesT (λ s, sum_documentId s = gd_id input) ;;
      ret (document, summaries)
  end.

(* ------------------------------------------------------------------ *)
(** * Summaries *)
(* ------------------------------------------------------------------ *)

Record CreateSummaryInput := {
  cs_documentId : Z;
  cs_summaryType : option SummaryType;
  cs_content : string;
  cs_originalLength : option Z;
  cs_summaryLength : option Z;
  cs_meta : option Json;
}.

Definition createSummary (input : CreateSummaryInput) (now : Date)
    (context : ActionAPIContext) : Handler (option NoteSummary) :=
  do user <- requireUser context ;;
  do found <- limit1 (db_select NotesDocumentsT
                     (λ d, doc_id d = cs_documentId input ∧ doc_ownerId d = user_id user)) ;;
  match head found with
  | None => throw NOT_FOUND "Document not found."
  | Some document =>
      do inserted <- db_insert NoteSummariesT (λ id,
        {| sum_id := id;
           sum_documentId := cs_documentId input;
           sum_ownerId := user_id user;
           sum_summaryType := default short (cs_summaryType input);
           sum_content := cs_content input;
           sum_originalLength := cs_originalLength input;
           sum_summaryLength := cs_summaryLength input;
           sum_meta := cs_meta input;
           sum_createdAt := now |}) ;;
      ret (head inserted)
  end.

Record ListSummariesInput := { ls_documentId : option Z }.

(** The narrowing both list handlers start with: the caller's documents,
    cut down to one id when [input?.documentId] is truthy. *)
Definition accessible_documents (documentId : option Z) (uid : string)
    : Handler (list NotesDocument) :=
  do documents <- db_select NotesDocumentsT (λ d, doc_ownerId d = uid) ;;
  if truthy documentId then
    let documents := filter (λ doc, Some (doc_id doc) = documentId) documents in
    if bool_decide (length documents = 0%nat)
    then throw NOT_FOUND "Document not found."
    else ret documents
  else ret documents.

Definition listSummaries (input : option ListSummariesInput)
    (context : ActionAPIContext) : Handler (list NoteSummary) :=
  do user <- requireUser context ;;
  do documents <- accessible_documents (input ≫= ls_documentId) (user_id user) ;;
  let docIds := doc_id <$> documents in
  do summaries <- db_select NoteSummariesT (λ s, sum_ownerId s = user_id user) ;;
  ret (filter (λ summary, sum_documentId summary ∈ docIds) summaries).

(* ------------------------------------------------------------------ *)
(** * Jobs *)
(* ------------------------------------------------------------------ *)

Record CreateJobInput := {
  cj_documentId : option Z;
  cj_jobType : option JobType;
  cj_input : option Json;
  cj_output : option Json;
  cj_status : option JobStatus;
}.

Definition createJob (input : CreateJobInput) (now : Date)
    (context : ActionAPIContext) : Handler (option SummaryJob) :=
  do user <- requireUser context ;;
  do _ <- (if truthy (cj_documentId input) then
          do found <- limit1 (db_select NotesDocumentsT
                     (λ d, Some (doc_id d) = cj_documentId input
                           ∧ doc_ownerId d = user_id user)) ;;
          match head found with
          | None => throw NOT_FOUND "Document not found."
          | Some document => ret ()
          end
        else ret ()) ;;
  do inserted <- db_insert SummaryJobsT (λ id,
    {| job_id := id;
       job_documentId := cj_documentId input;
       job_ownerId := user_id user;
       job_jobType := default job_summary (cj_jobType input);
       job_input := cj_input input;
       job_output := cj_output input;
       job_status := default pending (cj_status input);
       job_createdAt := now |}) ;;
  ret (head inserted).

Record UpdateJobInput := {
  uj_id : Z;
  uj_output : option Json;
  uj_status : option JobStatus;
}.

Inductive JobAssignment :=
| set_output (v : Json)
| set_status (v : JobStatus).

Definition assign_job (j : SummaryJob) (a : JobAssignment) : SummaryJob :=
  match a with
  | set_output v =>
      {| job_id := job_id j; job_documentId := job_documentId j;
         job_ownerId := job_ownerId j; job_jobType := job_jobType j;
         job_input := job_input j; job_output := Some v;
         job_status := job_status j; job_createdAt := job_createdAt j |}
  | set_status v =>
      {| job_id := job_id j; job_documentId := job_documentId j;
         job_ownerId := job_ownerId j; job_jobType := job_jobType j;
         job_input := job_input j; job_output := job_output j;
         job_status := v; job_createdAt := job_createdAt j |}
  end.

Definition set_job (data : list JobAssignment) (j : SummaryJob) : SummaryJob :=
  foldl assign_job j data.

Definition uj_updateData (input : UpdateJobInput) : list JobAssignment :=
  match uj_output input with Some v => [set_output v] | None => [] end
  ++ match uj_status input with Some v => [set_status v] | None => [] end.
Arguments uj_updateData : simpl never.

Definition updateJob (input : UpdateJobInput)
    (context : ActionAPIContext) : Handler (option SummaryJob) :=
  do user <- requireUser context ;;
  do found <- limit1 (db_select SummaryJobsT
                     (λ j, job_id j = uj_id input ∧ job_ownerId j = user_id user)) ;;
  match head found with
  | None => throw NOT_FOUND "Job not found."
  | Some existing =>
      let updateData := uj_updateData input in
      if bool_decide (length updateData = 0%nat) then ret (Some existing)
      else
        (* the statement names the row by its id alone *)
        do updated <- db_update SummaryJobsT (set_job updateData)
                     (λ j, job_id j = uj_id input) ;;
        ret (head updated)
  end.

Record ListJobsInput := {
  lj_documentId : option Z;
  lj_status : option JobStatus;
}.

(** [Set.prototype.has] at a value that may be [null]. *)
Definition set_has (s : gset Z) (x : option Z) : bool :=
  match x with
  | Some id => bool_decide (id ∈ s)
  | None => false
  end.

Definition listJobs (input : option ListJobsInput)
    (context : ActionAPIContext) : Handler (list SummaryJob) :=
  do user <- requireUser context ;;
  do documents <- accessible_documents (input ≫= lj_documentId) (user_id user) ;;
  let allowedDocIds : gset Z := list_to_set (doc_id <$> documents) in
  do jobs <- db_select SummaryJobsT (λ j, job_ownerId j = user_id user) ;;
  ret (filter (λ job,
         let matchesDoc :=
           if truthy (job_documentId job)
           then set_has allowedDocIds (job_documentId job)
           else true in
         let matchesStatus :=
           match input ≫= lj_status with
           | Some status => bool_decide (job_status job = status)
           | None => true
           end in
         matchesDoc && matchesStatus) jobs).

(* ------------------------------------------------------------------ *)
(** * The action table [server] *)
(* ------------------------------------------------------------------ *)

Inductive Request :=
| CreateDocument (input : CreateDocumentInput) (now now' : Date)
| UpdateDocument (input : UpdateDocumentInput) (now : Date)
| DeleteDocument (input : DeleteDocumentInput)
| ListDocuments
| GetDocumentWithSummaries (input : GetDocumentInput)
| CreateSummary (input : CreateSummaryInput) (now : Date)
| ListSummaries (input : option ListSummariesInput)
| CreateJob (input : CreateJobInput) (now : Date)
| UpdateJob (input : UpdateJobInput)
| ListJobs (input : option ListJobsInput).

Inductive Response :=
| document_ (document : option NotesDocument)
| documents_ (documents : list NotesDocument)
| document_summaries_ (document : NotesDocument) (summaries : list NoteSummary)
| summary_ (summary : option NoteSummary)
| summaries_ (summaries : list NoteSummary)
| job_ (job : option SummaryJob)
| jobs_ (jobs : list SummaryJob).

Definition respond {A} (wrap : A → Response) (m : Handler A) : Handler Response :=
  do a <- m ;; ret (wrap a).

Definition server (req : Request) (context : ActionAPIContext) : Handler Response :=
  match req with
  | CreateDocument input now now' => respond document_ (createDocument input now now' context)
  | UpdateDocument input now => respond document_ (updateDocument input now context)
  | DeleteDocument input => respond (document_ ∘ Some) (deleteDocument input context)
  | ListDocuments => respond documents_ (listDocuments context)
  | GetDocumentWithSummaries input =>
      respond (λ r, document_summaries_ r.1 r.2) (getDocumentWithSummaries input context)
  | CreateSummary input now => respond summary_ (createSummary input now context)
  | ListSummaries input => respond summaries_ (listSummaries input context)
  | CreateJob input now => respond job_ (createJob input now context)
  | UpdateJob input => respond job_ (updateJob input context)
  | ListJobs input => respond jobs_ (listJobs input context)
  end.

(** The store after one request, and after a sequence of requests by
    arbitrary callers. *)
Definition after (req : Request) (context : ActionAPIContext) (db : Db) : Db :=
  (server req context db).2.

Definition run (calls : list (ActionAPIContext * Request)) (db : Db) : Db :=
  foldl (λ db call, after call.2 call.1 db) db calls.

(** Requests none of which is made by [U]. *)
Definition by_others (U : string) (calls : list (ActionAPIContext * Request)) : Prop :=
  Forall (λ call, caller call.1 ≠ Some U) calls.

(* ------------------------------------------------------------------ *)
(** * What the store guarantees: keys and references *)
(* ------------------------------------------------------------------ *)

(** [id] is an integer primary key: ids are distinct, and they are
    positive, being counted from 1. *)
Definition wf_table {R} `{Row R} (t : Table R) : Prop :=
  NoDup (row_id <$> rows t) ∧ Forall (λ r, 0 < row_id r) (rows t).

(** Every [documentId] that is not [null] is the id of a document. *)
Definition references_hold (db : Db) : Prop :=
  Forall (λ s, references NoteSummariesT db s) (rows (NoteSummaries db))
  ∧ Forall (λ j, references SummaryJobsT db j) (rows (SummaryJobs db)).

Definition wf (db : Db) : Prop :=
  wf_table (NotesDocuments db) ∧ wf_table (NoteSummaries db)
  ∧ wf_table (SummaryJobs db) ∧ references_hold db.

#[global] Instance wf_table_dec {R} `{Row R} (t : Table R) : Decision (wf_table t).
Proof. unfold wf_table. apply _. Defined.

#[global] Instance references_hold_dec (db : Db) : Decision (references_hold db).
Proof. unfold references_hold. apply _. Defined.

#[global] Instance wf_dec (db : Db) : Decision (wf db).
Proof. unfold wf. apply _. Defined.

(** The rows of a table that belong to somebody else. *)
Definition others {R} `{Row R} (uid : string) (l : list R) : list R :=
  filter (λ r, row_ownerId r ≠ uid) l.

(** What one statement may do to a table on behalf of [uid]. Only the
    document table is ever the target of a delete. *)
Inductive table_step {R} `{Row R} (deletes : bool) (uid : string) (t : Table R)
    : Table R → Prop :=
| ts_same : table_step deletes uid t t
| ts_insert row :
    row_id row = next_id (rows t) →
    row_ownerId row = uid →
    table_step deletes uid t (MkTable (rows t ++ [row]))
| ts_update (set : R → R) (P : R → Prop) `{!∀ r, Decision (P r)} :
    (∀ r, row_id (set r) = row_id r ∧ row_ownerId (set r) = row_ownerId r) →
    (∀ r, r ∈ rows t → P r → row_ownerId r = uid) →
    table_step deletes uid t
      (MkTable ((λ r, if decide (P r) then set r else r) <$> rows t))
| ts_delete (P : R → Prop) `{!∀ r, Decision (P r)} :
    deletes = true →
    (∀ r, r ∈ rows t → P r → row_ownerId r = uid) →
    table_step deletes uid t (MkTable (filter (λ r, ¬ P r) (rows t))).

Definition db_step (uid : string) (db db' : Db) : Prop :=
  table_step true uid (NotesDocuments db) (NotesDocuments db')
  ∧ table_step false uid (NoteSummaries db) (NoteSummaries db')
  ∧ table_step false uid (SummaryJobs db) (SummaryJobs db').

(** The caller owns the document [id]. *)
Definition owns (uid : string) (db : Db) (id : Z) : Prop :=
  ∃ d, d ∈ rows (NotesDocuments db) ∧ doc_id d = id ∧ doc_ownerId d = uid.

(** A summary or a job refers to the document [id]. *)
Definition has_dependents (db : Db) (id : Z) : Prop :=
  (∃ s, s ∈ rows (NoteSummaries db) ∧ sum_documentId s = id)
  ∨ (∃ j, j ∈ rows (SummaryJobs db) ∧ job_documentId j = Some id).

(** What one request does to the store on behalf of [uid]: nothing, or
    the one statement of its handler that writes. *)
Inductive effect (uid : string) (db : Db) : Db → Prop :=
| eff_none : effect uid db db
| eff_insert_document d :
    doc_id d = next_id (rows (NotesDocuments db)) →
    doc_ownerId d = uid →
    effect uid db
      (MkDb (MkTable (rows (NotesDocuments db) ++ [d])) (NoteSummaries db)
            (SummaryJobs db))
| eff_update_document (set : NotesDocument → NotesDocument)
      (P : NotesDocument → Prop) `{!∀ r, Decision (P r)} :
    (∀ r, doc_id (set r) = doc_id r ∧ doc_ownerId (set r) = doc_ownerId r) →
    (∀ r, r ∈ rows (NotesDocuments db) → P r → doc_ownerId r = uid) →
    effect uid db
      (MkDb (MkTable ((λ r, if decide (P r) then set r else r)
                        <$> rows (NotesDocuments db)))
            (NoteSummaries db) (SummaryJobs db))
| eff_delete_document (P : NotesDocument → Prop) `{!∀ r, Decision (P r)} :
    (∀ r, r ∈ rows (NotesDocuments db) → P r → doc_ownerId r = uid) →
    (∀ r, r ∈ rows (NotesDocuments db) → P r → ¬ has_dependents db (doc_id r)) →
    effect uid db
      (MkDb (MkTable (filter (λ r, ¬ P r) (rows (NotesDocuments db))))
            (NoteSummaries db) (SummaryJobs db))
| eff_insert_summary s :
    sum_id s = next_id (rows (NoteSummaries db)) →
    sum_ownerId s = uid →
    owns uid db (sum_documentId s) →
    effect uid db
      (MkDb (NotesDocuments db) (MkTable (rows (NoteSummaries db) ++ [s]))
            (SummaryJobs db))
| eff_insert_job j :
    job_id j = next_id (rows (SummaryJobs db)) →
    job_ownerId j = uid →
    (∀ i, job_documentId j = Some i → owns uid db i) →
    effect uid db
      (MkDb (NotesDocuments db) (NoteSummaries db)
            (MkTable (rows (SummaryJobs db) ++ [j])))
| eff_update_job (set : SummaryJob → SummaryJob)
      (P : SummaryJob → Prop) `{!∀ r, Decision (P r)} :
    (∀ r, job_id (set r) = job_id r ∧ job_ownerId (set r) = job_ownerId r
          ∧ job_documentId (set r) = job_documentId r) →
    (∀ r, r ∈ rows (SummaryJobs db) → P r → job_ownerId r = uid) →
    effect uid db
      (MkDb (NotesDocuments db) (NoteSummaries db)
            (MkTable ((λ r, if decide (P r) then set r else r)
                        <$> rows (SummaryJobs db)))).

(** Lengths the client hands out as numbers. *)
Definition safe_length (n : option Z) : Prop :=
  ∀ k, n = Some k → safe_integer k.

Definition safe_lengths (s : NoteSummary) : Prop :=
  safe_length (sum_originalLength s) ∧ safe_length (sum_summaryLength s).

(** A whole number of 2^53 or more that still fits in 64 bits. *)
Definition unsafe_length (n : option Z) : Prop :=
  ∃ k, n = Some k ∧ 2 ^ 53 ≤ k < 2 ^ 63.

(** A summary and the document it refers to have one owner, and so have a
    job and the document it refers to. *)
Definition owned_references (db : Db) : Prop :=
  (∀ s d, s ∈ rows (NoteSummaries db) → d ∈ rows (NotesDocuments db) →
          doc_id d = sum_documentId s → doc_ownerId d = sum_ownerId s)
  ∧ (∀ j d, j ∈ rows (SummaryJobs db) → d ∈ rows (NotesDocuments db) →
            job_documentId j = Some (doc_id d) → doc_ownerId d = job_ownerId j).

(* ------------------------------------------------------------------ *)
(** * Sample stores *)
(* ------------------------------------------------------------------ *)

Definition meeting : CreateDocumentInput :=
  {| cd_title := "Meeting"; cd_content := "...";
     cd_sourceType := None;
     cd_sourceMeta := Some (JObj [("a", JNum 1)]);
     cd_tags := None |}.

Definition lecture : CreateDocumentInput :=
  {| cd_title := "Lecture"; cd_content := "notes";
     cd_sourceType := Some web; cd_sourceMeta := None; cd_tags := Some "uni" |}.

(** alice and bob each keep a document; alice has a summary of hers and a
    job without document, bob a failed job on his document. *)
Definition sample_calls : list (ActionAPIContext * Request) :=
  [ (signed_in "alice", CreateDocument meeting 1000 1001);
    (signed_in "bob", CreateDocument lecture 2000 2000);
    (signed_in "alice",
       CreateSummary {| cs_documentId := 1; cs_summaryType := None;
                        cs_content := "short one"; cs_originalLength := Some 3;
                        cs_summaryLength := None; cs_meta := None |} 3000);
    (signed_in "bob",
       CreateJob {| cj_documentId := Some 2; cj_jobType := None; cj_input := None;
                    cj_output := None; cj_status := Some failed |} 4000);
    (signed_in "alice",
       CreateJob {| cj_documentId := None; cj_jobType := Some job_rewrite;
                    cj_input := Some (JStr "prompt"); cj_output := None;
                    cj_status := None |} 5000) ].

Definition sample_db : Db := run sample_calls empty_db.

(** A failed job on document 0. *)
Definition job_on_nothing : CreateJobInput :=
  {| cj_documentId := Some 0; cj_jobType := None; cj_input := None;
     cj_output := None; cj_status := Some failed |}.

Definition alice_meeting : NotesDocument :=
  {| doc_id := 1; doc_ownerId := "alice"; doc_title := "Meeting";
     doc_content := "..."; doc_sourceType := manual;
     doc_sourceMeta := Some (JObj [("a", JNum 1)]); doc_tags := None;
     doc_createdAt := 1000; doc_updatedAt := 1001 |}.

Definition alice_job : SummaryJob :=
  {| job_id := 2; job_documentId := None; job_ownerId := "alice";
     job_jobType := job_rewrite; job_input := Some (JStr "prompt");
     job_output := None; job_status := pending; job_createdAt := 5000 |}.

Definition finish_job : UpdateJobInput :=
  {| uj_id := 2; uj_output := Some (JStr "done"); uj_status := Some completed |}.

Definition summary_of_lecture : CreateSummaryInput :=
  {| cs_documentId := 2; cs_summaryType := Some bullet_points;
     cs_content := "stolen"; cs_originalLength := None;
     cs_summaryLength := None; cs_meta := None |}.

Definition rename_meeting : UpdateDocumentInput :=
  {| ud_id := 1; ud_title := Some "x"; ud_content := None;
     ud_sourceType := None; ud_sourceMeta := None; ud_tags := None |}.

(* ------------------------------------------------------------------ *)
(** * Responses *)
(* ------------------------------------------------------------------ *)

(** The [ownerId] of every row a result hands to the caller; a thrown
    error carries no row. *)
Definition result_owners (r : Result Response) : list string :=
  match r with
  | Ok (document_ document) => doc_ownerId <$> option_list document
  | Ok (documents_ documents) => doc_ownerId <$> documents
  | Ok (document_summaries_ document summaries) =>
      doc_ownerId document :: (sum_ownerId <$> summaries)
  | Ok (summary_ summary) => sum_ownerId <$> option_list summary
  | Ok (summaries_ summaries) => sum_ownerId <$> summaries
  | Ok (job_ job) => job_ownerId <$> option_list job
  | Ok (jobs_ jobs) => job_ownerId <$> jobs
  | ActionError _ _ => []
  | Uncaught _ => []
  end.

(** The columns of a job that say what was requested, by whom and when:
    all but [output] and [status]. *)
Definition job_request (j : SummaryJob)
    : Z * option Z * string * JobType * option Json * Date :=
  (job_id j, job_documentId j, job_ownerId j, job_jobType j, job_input j,
   job_createdAt j).


Definition job_on_lecture : CreateJobInput :=
  {| cj_documentId := Some 2; cj_jobType := Some job_key_points;
     cj_input := None; cj_output := None; cj_status := None |}.

Definition job_on_meeting : CreateJobInput :=
  {| cj_documentId := Some 1; cj_jobType := None;
     cj_input := Some (JStr "summarise"); cj_output := None; cj_status := None |}.

Definition meeting_job : SummaryJob :=
  {| job_id := 3; job_documentId := Some 1; job_ownerId := "alice";
     job_jobType := job_summary; job_input := Some (JStr "summarise");
     job_output := None; job_status := pending; job_createdAt := 8000 |}.

Definition retry_first_job : UpdateJobInput :=
  {| uj_id := 1; uj_output := None; uj_status := Some pending |}.

Definition renamed_meeting : NotesDocument :=
  {| doc_id := 1; doc_ownerId := "alice"; doc_title := "x";
     doc_content := "..."; doc_sourceType := manual;
     doc_sourceMeta := Some (JObj [("a", JNum 1)]); doc_tags := None;
     doc_createdAt := 1000; doc_updatedAt := 9000 |}.

(** A summary of alice's document whose [originalLength] is 2^53. *)
Definition long_summary : CreateSummaryInput :=
  {| cs_documentId := 1; cs_summaryType := None; cs_content := "long";
     cs_originalLength := Some (2 ^ 53); cs_summaryLength := None;
     cs_meta := None |}.

Definition alice_summary : NoteSummary :=
  {| sum_id := 1; sum_documentId := 1; sum_ownerId := "alice";
     sum_summaryType := short; sum_content := "short one";
     sum_originalLength := Some 3; sum_summaryLength := None;
     sum_meta := None; sum_createdAt := 3000 |}.

Definition bob_lecture : NotesDocument :=
  {| doc_id := 2; doc_ownerId := "bob"; doc_title := "Lecture";
     doc_content := "notes"; doc_sourceType := web; doc_sourceMeta := None;
     doc_tags := Some "uni"; doc_createdAt := 2000; doc_updatedAt := 2000 |}.

Definition alice_long_summary : NoteSummary :=
  {| sum_id := 2; sum_documentId := 1; sum_ownerId := "alice";
     sum_summaryType := short; sum_content := "long";
     sum_originalLength := Some (2 ^ 53); sum_summaryLength := None;
     sum_meta := None; sum_createdAt := 8000 |}.

(** The sample store after alice has stored that summary. *)
Definition poisoned_db : Db :=
  after (CreateSummary long_summary 8000) (signed_in "alice") sample_db.

(** The two documents of the sample store, before anything refers to
    them. *)
Definition plain_db : Db := run (take 2 sample_calls) empty_db.

(** A context without a user. *)
Definition anonymous : ActionAPIContext := {| locals := Some {| user := None |} |}.

(* ------------------------------------------------------------------ *)
(** * Proof automation *)
(* ------------------------------------------------------------------ *)

(** Unfold a handler down to the statements on the tables. *)
Ltac run_handler :=
  unfold after, server, respond, createDocument, updateDocument, deleteDocument,
    listDocuments, getDocumentWithSummaries, createSummary, listSummaries,
    createJob, updateJob, listJobs, accessible_documents, limit1, requireUser,
    db_select, db_insert, db_update, db_delete, bind, ret, throw, signed_in;
  simpl.

Ltac same_tables := repeat split; try apply ts_same.

(** Goals about a store given by its requests: evaluate. *)
Ltac by_evaluation := apply (bool_decide_unpack _); vm_compute; exact I.

(** Goals about every row of a table of such a store: enumerate. *)
Ltac by_rows :=
  let d := fresh "d" in let Hd := fresh "Hd" in
  intros d Hd; vm_compute in Hd;
  repeat (apply elem_of_cons in Hd as [->|Hd]; [done|]);
  by apply elem_of_nil in Hd.

(** Goals [owns uid db id] on such a store: name the document. *)
Ltac by_owner d := exists d; split_and!; [vm_compute; constructor|reflexivity..].

(** Goals about the lengths of every summary of such a store. *)
Ltac by_lengths :=
  let s := fresh "s" in let Hs := fresh "Hs" in let k := fresh "k" in
  intros s Hs _; vm_compute in Hs;
  repeat (apply elem_of_cons in Hs as [->|Hs];
          [split; intros k [= <-]; by vm_compute|]);
  by apply elem_of_nil in Hs.

(** * Lists of rows *)
(* ------------------------------------------------------------------ *)

Section rows.
Context {R : Type} `{Row R}.
Implicit Types (l : list R) (P : R → Prop).

Lemma filter_none l P `{!∀ r, Decision (P r)} :
  (∀ r, r ∈ l → ¬ P r) → filter P l = [].
Proof.
  induction l as [|x l IH]; intros Hno; [done|].
  rewrite filter_cons_False by (apply Hno; left).
  apply IH. intros r Hr. apply Hno. by right.
Qed.

Lemma filter_all l P `{!∀ r, Decision (P r)} :
  (∀ r, r ∈ l → P r) → filter P l = l.
Proof.
  induction l as [|x l IH]; intros Hall; [done|].
  rewrite filter_cons_True by (apply Hall; left).
  f_equal. apply IH. intros r Hr. apply Hall. by right.
Qed.

Lemma filter_iff_in l P Q `{!∀ r, Decision (P r)} `{!∀ r, Decision (Q r)} :
  (∀ r, r ∈ l → P r ↔ Q r) → filter P l = filter Q l.
Proof.
  induction l as [|x l IH]; intros Hiff; [done|].
  assert (filter P l = filter Q l) as IH'.
  { apply IH. intros r Hr. apply Hiff. by right. }
  assert (P x ↔ Q x) as Hx by (apply Hiff; left).
  rewrite !filter_cons, IH'. repeat case_decide; tauto.
Qed.

Lemma head_take1 l : head (take 1 l) = head l.
Proof. by destruct l. Qed.

Lemma head_filter_Some l P `{!∀ r, Decision (P r)} r :
  head (filter P l) = Some r → r ∈ l ∧ P r.
Proof.
  intros Hh. assert (r ∈ filter P l) as Hin.
  { destruct (filter P l); simplify_eq/=. left. }
  apply list_elem_of_filter in Hin. tauto.
Qed.

(** A primary key names at most one row. *)
Lemma id_unique l r r' :
  NoDup (row_id <$> l) → r ∈ l → r' ∈ l → row_id r = row_id r' → r = r'.
Proof.
  induction l as [|x l IH]; intros Hnd Hr Hr' Hid; [by apply elem_of_nil in Hr|].
  rewrite fmap_cons in Hnd. apply NoDup_cons in Hnd as [Hx Hnd].
  apply elem_of_cons in Hr as [->|Hr]; apply elem_of_cons in Hr' as [->|Hr'];
    [done| | |by apply IH].
  - exfalso. apply Hx. rewrite Hid. by apply list_elem_of_fmap_2.
  - exfalso. apply Hx. rewrite <- Hid. by apply list_elem_of_fmap_2.
Qed.

Lemma filter_unique l P `{!∀ r, Decision (P r)} r :
  NoDup (row_id <$> l) → r ∈ l → P r → (∀ x, P x → row_id x = row_id r) →
  filter P l = [r].
Proof.
  induction l as [|x l IH]; intros Hnd Hr HP Hid; [by apply elem_of_nil in Hr|].
  rewrite fmap_cons in Hnd. apply NoDup_cons in Hnd as [Hx Hnd].
  apply elem_of_cons in Hr as [<-|Hr].
  - rewrite filter_cons_True by done. f_equal.
    apply filter_none. intros y Hy HPy. apply Hx.
    rewrite <- (Hid y HPy). by apply list_elem_of_fmap_2.
  - rewrite filter_cons_False; [by apply IH|].
    intros HPx. apply Hx. rewrite (Hid x HPx). by apply list_elem_of_fmap_2.
Qed.

(** The next id is above every id in the table. *)
Lemma next_id_above l r : r ∈ l → row_id r < next_id l.
Proof.
  unfold next_id. intros Hr. apply (list_elem_of_fmap_2 row_id) in Hr.
  destruct (row_id <$> l) as [|i ids]; [by apply elem_of_nil in Hr|].
  assert (∀ x, x ∈ i :: ids → x ≤ foldr Z.max i ids) as Hmax.
  { clear. induction ids as [|k ids IH]; intros x Hx; simpl.
    - apply list_elem_of_singleton in Hx. lia.
    - assert (x = k ∨ x ∈ i :: ids) as [->|Hx'].
      { apply elem_of_cons in Hx as [->|Hx]; [right; left|].
        apply elem_of_cons in Hx as [->|Hx]; [by left|right; by right]. }
      + lia.
      + specialize (IH x Hx'). lia. }
  specialize (Hmax _ Hr). lia.
Qed.

Lemma next_id_positive l : Forall (λ r, 0 < row_id r) l → 0 < next_id l.
Proof.
  destruct l as [|r l]; [done|]. intros [Hr _]%Forall_cons.
  pose proof (next_id_above (r :: l) r) as Hlt. simpl in *.
  specialize (Hlt ltac:(left)). lia.
Qed.

(** A table whose rows carry no number of the caller is always read. *)
Lemma returning_no_numbers l :
  (∀ r, row_numbers r = []) → returning l = Ok l.
Proof.
  intros Hno. unfold returning.
  assert (forallb readable l = true) as ->; [|done].
  apply forallb_forall. intros r _. unfold readable. by rewrite Hno.
Qed.
End rows.

Lemma returning_documents (l : list NotesDocument) : returning l = Ok l.
Proof. by apply returning_no_numbers. Qed.

Lemma returning_jobs (l : list SummaryJob) : returning l = Ok l.
Proof. by apply returning_no_numbers. Qed.

(** The statements on documents and jobs always hand their rows back. *)
Ltac read := rewrite ?returning_documents, ?returning_jobs; simpl.

Lemma safe_lengths_readable (s : NoteSummary) : safe_lengths s → readable s = true.
Proof.
  intros [Ho Hs]. unfold readable, readable_number. simpl.
  destruct (sum_originalLength s) as [o|], (sum_summaryLength s) as [k|]; simpl;
    rewrite ?(Is_true_true_1 _ (Ho _ eq_refl)), ?(Is_true_true_1 _ (Hs _ eq_refl));
    done.
Qed.

Lemma returning_safe (l : list NoteSummary) :
  (∀ s, s ∈ l → safe_lengths s) → returning l = Ok l.
Proof.
  intros Hsafe. unfold returning.
  assert (forallb readable l = true) as ->; [|done].
  apply forallb_forall. intros s Hs. apply safe_lengths_readable, Hsafe.
  by apply list_elem_of_In.
Qed.

Lemma returning_unsafe (l : list NoteSummary) (s : NoteSummary) :
  s ∈ l →
  unsafe_length (sum_originalLength s) ∨ unsafe_length (sum_summaryLength s) →
  returning l = Uncaught RangeError.
Proof.
  intros Hs Hun. unfold returning.
  assert (forallb readable l = false) as ->; [|done].
  apply not_true_is_false. intros Hall. rewrite forallb_forall in Hall.
  specialize (Hall s ltac:(by apply list_elem_of_In)).
  assert (∀ k, 2 ^ 53 ≤ k < 2 ^ 63 → readable_number k = false) as Hk.
  { intros k Hk. unfold readable_number, safe_integer, kept_as_integer.
    rewrite bool_decide_eq_false_2 by lia. by rewrite bool_decide_eq_true_2 by lia. }
  unfold readable in Hall. simpl in Hall.
  destruct Hun as [(k & Hlen & Hr)|(k & Hlen & Hr)]; rewrite Hlen in Hall; simpl in Hall.
  - by rewrite (Hk k Hr) in Hall.
  - rewrite forallb_app in Hall. apply andb_true_iff in Hall as [_ Hall].
    simpl in Hall. by rewrite (Hk k Hr) in Hall.
Qed.

(* ------------------------------------------------------------------ *)
(** * What a statement preserves *)
(* ------------------------------------------------------------------ *)

Section table_step.
Context {R : Type} `{Row R}.
Implicit Types (t : Table R).

Lemma table_step_wf deletes uid t t' :
  table_step deletes uid t t' → wf_table t → wf_table t'.
Proof.
  intros Hstep (Hnd & Hpos).
  destruct Hstep as [|row Hid Huid|set P ? Hset Hown|P ? _ Hown];
    unfold wf_table; simpl.
  - done.
  - split.
    + rewrite fmap_app. apply NoDup_app. split_and!; [done| |apply NoDup_singleton].
      intros i Hi Hi'. apply list_elem_of_singleton in Hi'. subst i.
      apply list_elem_of_fmap in Hi as (r & Hr & Hin).
      pose proof (next_id_above _ _ Hin). simpl in *. lia.
    + apply Forall_app. split; [done|].
      apply Forall_singleton. rewrite Hid. by apply next_id_positive.
  - split.
    + rewrite <- list_fmap_compose.
      erewrite list_fmap_ext; [exact Hnd|].
      intros i r _. simpl. case_decide; [apply Hset|done].
    + apply Forall_fmap. eapply Forall_impl; [exact Hpos|].
      intros r Hr. simpl. case_decide; [|done].
      by destruct (Hset r) as [-> _].
  - split.
    + apply NoDup_fmap_2_strong.
      * intros x y Hx Hy Hxy.
        apply list_elem_of_filter in Hx as [_ Hx], Hy as [_ Hy].
        by eapply id_unique.
      * apply NoDup_filter. by eapply NoDup_fmap_1.
    + rewrite Forall_forall in Hpos |- *.
      intros r Hr. apply list_elem_of_filter in Hr as [_ Hr]. by apply Hpos.
Qed.

(** The rows of the other users come out exactly as they went in. *)
Lemma table_step_others deletes uid t t' :
  table_step deletes uid t t' → others uid (rows t') = others uid (rows t).
Proof.
  intros [|row Hid Huid|set P ? Hset Hown|P ? _ Hown]; unfold others; simpl.
  - done.
  - rewrite filter_app, filter_cons_False, filter_nil, app_nil_r; [done|].
    intros Hne. by apply Hne.
  - induction (rows t) as [|x l IH]; [done|].
    rewrite fmap_cons.
    assert (∀ r, r ∈ l → P r → row_ownerId r = uid) as Hl.
    { intros r Hr. apply Hown. by right. }
    case_decide as HP.
    + assert (row_ownerId x = uid) as Hx by (apply Hown; [left|done]).
      rewrite !filter_cons_False; [by apply IH| |].
      * intros Hne. by apply Hne.
      * destruct (Hset x) as [_ ->]. intros Hne. by apply Hne.
    + rewrite !filter_cons. case_decide; [f_equal|]; by apply IH.
  - rewrite list_filter_filter. apply filter_iff_in.
    intros r Hr. split; [tauto|]. intros Hne. split; [done|].
    intros HP. apply Hne. by apply Hown.
Qed.

(** A statement that is not a delete keeps every row, up to the columns
    an update may set. *)
Lemma table_step_keeps uid t t' r :
  table_step false uid t t' → r ∈ rows t →
  ∃ r', r' ∈ rows t' ∧ row_id r' = row_id r ∧ row_ownerId r' = row_ownerId r.
Proof.
  intros [|row Hid Huid|set P ? Hset Hown|P ? Hdel Hown] Hr; simpl.
  - by exists r.
  - exists r. split; [|done]. apply elem_of_app. by left.
  - exists (if decide (P r) then set r else r). split.
    + apply list_elem_of_fmap. by exists r.
    + case_decide; [apply Hset|done].
  - done.
Qed.

(** A statement on behalf of [uid] keeps the rows of everybody else. *)
Lemma table_step_keeps_other deletes uid t t' r :
  table_step deletes uid t t' → r ∈ rows t → row_ownerId r ≠ uid → r ∈ rows t'.
Proof.
  intros Hstep Hr Hne. apply table_step_others in Hstep.
  assert (r ∈ others uid (rows t)) as Hin by (apply list_elem_of_filter; done).
  rewrite <- Hstep in Hin. by apply list_elem_of_filter in Hin as [_ ?].
Qed.

End table_step.


(* ------------------------------------------------------------------ *)
(** * Every request is a statement on behalf of its caller *)
(* ------------------------------------------------------------------ *)

Lemma set_document_keys data d :
  doc_id (set_document data d) = doc_id d
  ∧ doc_ownerId (set_document data d) = doc_ownerId d
  ∧ doc_createdAt (set_document data d) = doc_createdAt d.
Proof.
  unfold set_document. revert d.
  induction data as [|a data IH]; intros d; [done|].
  simpl. destruct (IH (assign_document d a)) as (-> & -> & ->). by destruct a.
Qed.

Lemma set_job_keys data j :
  job_id (set_job data j) = job_id j
  ∧ job_ownerId (set_job data j) = job_ownerId j
  ∧ job_documentId (set_job data j) = job_documentId j
  ∧ job_jobType (set_job data j) = job_jobType j
  ∧ job_input (set_job data j) = job_input j
  ∧ job_createdAt (set_job data j) = job_createdAt j.
Proof.
  unfold set_job. revert j.
  induction data as [|a data IH]; intros j; [done|].
  simpl. destruct (IH (assign_job j a)) as (-> & -> & -> & -> & -> & ->).
  by destruct a.
Qed.

(** A document is referred to exactly if it has dependents. *)
Lemma referenced_dependents db d :
  referenced NotesDocumentsT db d = true ↔ has_dependents db (doc_id d).
Proof.
  unfold has_dependents. simpl.
  rewrite orb_true_iff, !bool_decide_eq_true, !list_elem_of_fmap.
  split; (intros [(x & Hx & Hin)|(x & Hx & Hin)]; [left|right]; by exists x).
Qed.

Lemma document_exists_Some db i :
  document_exists db (Some i) = true ↔ ∃ d, d ∈ rows (NotesDocuments db) ∧ doc_id d = i.
Proof.
  simpl. rewrite bool_decide_eq_true, list_elem_of_fmap.
  split; intros (d & ? & ?); by exists d.
Qed.

Lemma handler_effect req uid db : wf db → effect uid db (after req (signed_in uid) db).
Proof.
  intros (Hd & Hs & Hj & Hrefs). destruct req; run_handler; read.
  - by apply eff_insert_document.
  - rewrite head_take1. destruct (head _) as [existing|] eqn:Hex; simpl;
      [|apply eff_none].
    case_bool_decide; simpl; [apply eff_none|]. read.
    apply eff_update_document.
    + intros r. destruct (set_document_keys
        (ud_updateData input ++ [set_updatedAt now]) r) as (? & ? & _). done.
    + by intros r _ [_ ?].
  - destruct (existsb _ _) eqn:Href; simpl; [apply eff_none|]. read.
    assert (effect uid db
              (MkDb (MkTable (filter (λ r, ¬ (doc_id r = dd_id input ∧ doc_ownerId r = uid))
                                (rows (NotesDocuments db))))
                    (NoteSummaries db) (SummaryJobs db))) as Heff.
    { apply eff_delete_document; [by intros r _ [_ ?]|].
      intros r Hr HP Hdep. apply referenced_dependents in Hdep.
      apply not_true_iff_false in Href. apply Href.
      apply existsb_exists. exists r. split; [|done].
      apply list_elem_of_In. by apply list_elem_of_filter. }
    by destruct (head _).
  - apply eff_none.
  - rewrite head_take1. destruct (head _); simpl; [|apply eff_none].
    destruct (returning _); simpl; apply eff_none.
  - rewrite head_take1. destruct (head _) as [d|] eqn:Hdoc; simpl; [|apply eff_none].
    destruct (bool_decide _); simpl; [|apply eff_none].
    assert (effect uid db
              (MkDb (NotesDocuments db)
                 (MkTable (rows (NoteSummaries db) ++
                    [ {| sum_id := next_id (rows (NoteSummaries db));
                         sum_documentId := cs_documentId input;
                         sum_ownerId := uid;
                         sum_summaryType := default short (cs_summaryType input);
                         sum_content := cs_content input;
                         sum_originalLength := cs_originalLength input;
                         sum_summaryLength := cs_summaryLength input;
                         sum_meta := cs_meta input;
                         sum_createdAt := now |} ]))
                 (SummaryJobs db))) as Heff.
    { apply eff_insert_summary; [done..|]. simpl.
      apply head_filter_Some in Hdoc as (Hin & Hid & Hu). by exists d. }
    by destruct (returning _).
  - destruct (truthy _); simpl; [case_bool_decide|]; simpl; try apply eff_none;
      destruct (returning _); simpl; apply eff_none.
  - assert (document_exists db (cj_documentId input) = true →
            (truthy (cj_documentId input) → ∃ d, d ∈ rows (NotesDocuments db)
               ∧ Some (doc_id d) = cj_documentId input ∧ doc_ownerId d = uid) →
            effect uid db
              (MkDb (NotesDocuments db) (NoteSummaries db)
                 (MkTable (rows (SummaryJobs db) ++
                    [ {| job_id := next_id (rows (SummaryJobs db));
                         job_documentId := cj_documentId input;
                         job_ownerId := uid;
                         job_jobType := default job_summary (cj_jobType input);
                         job_input := cj_input input;
                         job_output := cj_output input;
                         job_status := default pending (cj_status input);
                         job_createdAt := now |} ])))) as Heff.
    { intros Hex Hchecked. apply eff_insert_job; [done..|]. simpl.
      intros i Hi. rewrite Hi in Hex, Hchecked.
      destruct (decide (i = 0)) as [->|Hnz].
      - apply document_exists_Some in Hex as (d & Hin & Hid).
        destruct Hd as [_ Hpos]. rewrite Forall_forall in Hpos.
        specialize (Hpos d Hin). simpl in Hpos. lia.
      - destruct Hchecked as (d & Hin & [= Hid] & Hu).
        { simpl. by rewrite bool_decide_eq_true_2. }
        by exists d. }
    destruct (truthy (cj_documentId input)) eqn:Ht; simpl; read.
    + rewrite head_take1. destruct (head _) as [d|] eqn:Hdoc; simpl; [|apply eff_none].
      destruct (document_exists _ _) eqn:Hex; simpl; [|apply eff_none]. read.
      apply Heff; [done|]. intros _.
      apply head_filter_Some in Hdoc as (Hin & Hid & Hu). by exists d.
    + destruct (document_exists _ _) eqn:Hex; simpl; [|apply eff_none]. read.
      apply Heff; [done|]. by intros [].
  - rewrite head_take1. destruct (head _) as [existing|] eqn:Hex; simpl;
      [|apply eff_none].
    case_bool_decide; simpl; [apply eff_none|]. read.
    apply eff_update_job.
    + intros r. destruct (set_job_keys (uj_updateData input) r)
        as (? & ? & ? & _). done.
    + intros r Hr Hid. simpl in *.
      apply head_filter_Some in Hex as (Hin & Hid' & Huid).
      destruct Hj as (Hnd & _).
      assert (r = existing) as -> by (eapply id_unique; [done..|]; simpl; congruence).
      done.
  - destruct (truthy _); simpl; [case_bool_decide|]; simpl; read; apply eff_none.
Qed.

(** On each table the effect is one step on behalf of the caller. *)
Lemma effect_db_step uid db db' : effect uid db db' → db_step uid db db'.
Proof.
  intros [|d Hid Hu|set P ? Hset Hown|P ? Hown _|s Hid Hu _|j Hid Hu _|set P ? Hset Hown];
    same_tables.
  - by apply (ts_insert (R:=NotesDocument)).
  - by apply (ts_update (R:=NotesDocument)).
  - by apply (ts_delete (R:=NotesDocument)).
  - by apply (ts_insert (R:=NoteSummary)).
  - by apply (ts_insert (R:=SummaryJob)).
  - apply (ts_update (R:=SummaryJob)); [|done]. intros r. by destruct (Hset r) as (? & ? & _).
Qed.

Lemma server_effect req uid db : wf db → db_step uid db (after req (signed_in uid) db).
Proof. intros Hwf. by apply effect_db_step, handler_effect. Qed.

(** ** The references *)

Lemma references_hold_iff db :
  references_hold db ↔
  (∀ s, s ∈ rows (NoteSummaries db) →
        ∃ d, d ∈ rows (NotesDocuments db) ∧ doc_id d = sum_documentId s)
  ∧ (∀ j i, j ∈ rows (SummaryJobs db) → job_documentId j = Some i →
            ∃ d, d ∈ rows (NotesDocuments db) ∧ doc_id d = i).
Proof.
  unfold references_hold. rewrite !Forall_forall. simpl. split.
  - intros [Hs Hj]. split.
    + intros s Hin. apply document_exists_Some, Is_true_true, Hs, Hin.
    + intros j i Hin Hi. apply document_exists_Some. rewrite <- Hi.
      apply Is_true_true, Hj, Hin.
  - intros [Hs Hj]. split.
    + intros s Hin. apply Is_true_true, document_exists_Some, Hs, Hin.
    + intros j Hin. apply Is_true_true.
      destruct (job_documentId j) as [i|] eqn:Hi; [|done].
      by apply document_exists_Some, (Hj j).
Qed.

Lemma effect_references uid db db' :
  effect uid db db' → references_hold db → references_hold db'.
Proof.
  rewrite !references_hold_iff.
  intros [|d Hid Hu|set P ? Hset Hown|P ? Hown Hfree|s Hid Hu Hdoc|j Hid Hu Hdoc
          |set P ? Hset Hown] [Hs Hj]; simpl.
  - done.
  - split.
    + intros s Hin. destruct (Hs s Hin) as (d' & Hd' & ?). exists d'.
      split; [|done]. apply elem_of_app. by left.
    + intros j i Hin Hi. destruct (Hj j i Hin Hi) as (d' & Hd' & ?). exists d'.
      split; [|done]. apply elem_of_app. by left.
  - assert (∀ d, d ∈ rows (NotesDocuments db) →
              ∃ d', d' ∈ (λ r, if decide (P r) then set r else r)
                           <$> rows (NotesDocuments db)
                    ∧ doc_id d' = doc_id d) as Hkeep.
    { intros d Hd. exists (if decide (P d) then set d else d). split.
      - apply list_elem_of_fmap. by exists d.
      - case_decide; [apply Hset|done]. }
    split.
    + intros s Hin. destruct (Hs s Hin) as (d & Hd & Hi).
      destruct (Hkeep d Hd) as (d' & ? & ?). exists d'. split; [done|congruence].
    + intros j i Hin Hi. destruct (Hj j i Hin Hi) as (d & Hd & Hdi).
      destruct (Hkeep d Hd) as (d' & ? & ?). exists d'. split; [done|congruence].
  - split.
    + intros s Hin. destruct (Hs s Hin) as (d & Hd & Hi). exists d. split; [|done].
      apply list_elem_of_filter. split; [|done]. intros HP.
      apply (Hfree d Hd HP). left. by exists s.
    + intros j i Hin Hi. destruct (Hj j i Hin Hi) as (d & Hd & Hdi).
      exists d. split; [|done].
      apply list_elem_of_filter. split; [|done]. intros HP.
      apply (Hfree d Hd HP). right. exists j. split; [done|congruence].
  - split; [|done].
    intros s' [Hin|Hin]%elem_of_app; [by apply Hs|].
    apply list_elem_of_singleton in Hin. subst s'.
    destruct Hdoc as (d & Hd & Hi & _). by exists d.
  - split; [done|].
    intros j' i [Hin|Hin]%elem_of_app Hi; [by apply (Hj j')|].
    apply list_elem_of_singleton in Hin. subst j'.
    destruct (Hdoc i Hi) as (d & Hd & Hdi & _). by exists d.
  - split; [done|].
    intros j' i (j & -> & Hin)%list_elem_of_fmap Hi. apply (Hj j i Hin).
    case_decide; [|done]. by destruct (Hset j) as (_ & _ & <-).
Qed.

(** A context either carries a user or makes every handler throw before
    its first statement. *)
Lemma context_cases context :
  (∃ uid, context = signed_in uid) ∨ (∀ req db, after req context db = db).
Proof.
  destruct context as [[[[[uid]|]]|]]; [left; by exists uid|right..];
    intros req db; by destruct req.
Qed.

Lemma after_effect req context db :
  wf db → ∃ uid, effect uid db (after req context db).
Proof.
  intros Hwf. destruct (context_cases context) as [[uid ->]|Hsame].
  - exists uid. by apply handler_effect.
  - exists "". rewrite Hsame. apply eff_none.
Qed.

Lemma after_step req context db :
  wf db → ∃ uid, db_step uid db (after req context db).
Proof.
  intros Hwf. destruct (after_effect req context db Hwf) as [uid Heff].
  exists uid. by apply effect_db_step.
Qed.

Lemma effect_wf uid db db' : effect uid db db' → wf db → wf db'.
Proof.
  intros Heff (Wd & Ws & Wj & Wr).
  destruct (effect_db_step uid db db' Heff) as (Hd & Hs & Hj).
  split_and!; [by eapply table_step_wf..|by eapply effect_references].
Qed.

Lemma wf_empty : wf empty_db.
Proof. repeat split; simpl; by constructor. Qed.

Lemma wf_after req context db : wf db → wf (after req context db).
Proof.
  intros Hwf. destruct (after_effect req context db Hwf) as [uid Heff].
  by eapply effect_wf.
Qed.

Lemma wf_run calls db : wf db → wf (run calls db).
Proof.
  unfold run. revert db.
  induction calls as [|call calls IH]; intros db Hwf; [done|].
  simpl. apply IH. by apply wf_after.
Qed.

(** Every store the requests can build from the empty one has its
    keys and references in order. *)
Lemma wf_reachable calls : wf (run calls empty_db).
Proof. apply wf_run, wf_empty. Qed.

(** ** What the others do leaves my documents alone *)

Lemma run_by_others_keeps calls U db d :
  wf db → by_others U calls →
  d ∈ rows (NotesDocuments db) → doc_ownerId d = U →
  d ∈ rows (NotesDocuments (run calls db)).
Proof.
  unfold run, by_others. revert db.
  induction calls as [|call calls IH]; intros db Hwf Hcalls Hd HU; [done|].
  apply Forall_cons in Hcalls as [Hcall Hcalls].
  simpl. apply IH; [by apply wf_after|done| |done].
  destruct (context_cases call.1) as [[V HV]|Hsame]; [|by rewrite Hsame].
  rewrite HV in Hcall |- *.
  destruct (server_effect call.2 V db Hwf) as (Hstep & _).
  eapply (table_step_keeps_other (R:=NotesDocument)); [done..|].
  simpl. intros HdV. apply Hcall. unfold caller. simpl. congruence.
Qed.
(* ------------------------------------------------------------------ *)
(** * Documents: listing *)
(* ------------------------------------------------------------------ *)

Lemma createDocument_eq input now now' uid db :
  let D := {| doc_id := next_id (rows (NotesDocuments db));
              doc_ownerId := uid;
              doc_title := cd_title input;
              doc_content := cd_content input;
              doc_sourceType := default manual (cd_sourceType input);
              doc_sourceMeta := cd_sourceMeta input;
              doc_tags := cd_tags input;
              doc_createdAt := now;
              doc_updatedAt := now' |} in
  createDocument input now now' (signed_in uid) db
  = (Ok (Some D),
     MkDb (MkTable (rows (NotesDocuments db) ++ [D]))
          (NoteSummaries db) (SummaryJobs db)).
Proof. run_handler. by read. Qed.



(* ------------------------------------------------------------------ *)
(** * Ownership of every mutation *)
(* ------------------------------------------------------------------ *)

Lemma others_new_rows {R} `{Row R} uid (l l' : list R) :
  others uid l' = others uid l →
  ∀ r, r ∈ l' → r ∉ l → row_ownerId r = uid.
Proof.
  intros Heq r Hr Hnew.
  destruct (decide (row_ownerId r = uid)) as [|Hne]; [done|].
  exfalso. apply Hnew.
  assert (r ∈ others uid l') as Hin by (apply list_elem_of_filter; done).
  rewrite Heq in Hin. by apply list_elem_of_filter in Hin as [_ ?].
Qed.

(** C2. Whatever the request, the rows of each table that are not owned by
    the caller are after the request exactly what they were before it: no
    update or delete reaches them (Update Job included, although its
    statement names the row by id alone), and every row that is new, or
    new in its contents, carries the caller's id as [ownerId]. *)
Theorem mutations_ownership_scoped (req : Request) (uid : string) (db : Db) :
  wf db →
  let db' := after req (signed_in uid) db in
  (others uid (rows (NotesDocuments db')) = others uid (rows (NotesDocuments db))
   ∧ others uid (rows (NoteSummaries db')) = others uid (rows (NoteSummaries db))
   ∧ others uid (rows (SummaryJobs db')) = others uid (rows (SummaryJobs db)))
  ∧ (∀ d, d ∈ rows (NotesDocuments db') → d ∉ rows (NotesDocuments db) →
          doc_ownerId d = uid)
  ∧ (∀ s, s ∈ rows (NoteSummaries db') → s ∉ rows (NoteSummaries db) →
          sum_ownerId s = uid)
  ∧ (∀ j, j ∈ rows (SummaryJobs db') → j ∉ rows (SummaryJobs db) →
          job_ownerId j = uid).
Proof.
  intros Hwf db'.
  destruct (server_effect req uid db Hwf) as (Hd & Hs & Hj).
  apply table_step_others in Hd, Hs, Hj. fold db' in Hd, Hs, Hj.
  split; [done|]. split_and!.
  - exact (others_new_rows (R:=NotesDocument) uid _ _ Hd).
  - exact (others_new_rows (R:=NoteSummary) uid _ _ Hs).
  - exact (others_new_rows (R:=SummaryJob) uid _ _ Hj).
Qed.

(* ------------------------------------------------------------------ *)
(** * Documents: update and delete *)
(* ------------------------------------------------------------------ *)

Lemma set_table_same_docs db :
  MkDb (MkTable (rows (NotesDocuments db))) (NoteSummaries db) (SummaryJobs db) = db.
Proof. by destruct db as [[] ? ?]. Qed.

(** The scoped lookup [where id = i and ownerId = uid limit 1]. *)
Lemma lookup_owned {R} `{Row R} (l : list R) (r : R) :
  NoDup (row_id <$> l) → r ∈ l →
  head (take 1 (filter (λ x, row_id x = row_id r ∧ row_ownerId x = row_ownerId r) l))
  = Some r.
Proof.
  intros Hnd Hr. rewrite head_take1.
  by rewrite (filter_unique l _ r) by (done || by intros x [? _]).
Qed.

Lemma lookup_not_owned {R} `{Row R} (l : list R) (i : Z) (uid : string) :
  (∀ r, r ∈ l → row_id r = i → row_ownerId r ≠ uid) →
  filter (λ x, row_id x = i ∧ row_ownerId x = uid) l = [].
Proof. intros Hno. apply filter_none. intros r Hr [Hi Hu]. by apply (Hno r). Qed.

(** C3. Update Document with nothing but the id, on a document the caller
    owns, returns the stored row and leaves the store, [updatedAt]
    included, as it was. *)
Theorem updateDocument_id_only (uid : string) (now : Date) (db : Db)
    (existing : NotesDocument) :
  wf db →
  existing ∈ rows (NotesDocuments db) →
  doc_ownerId existing = uid →
  updateDocument
    {| ud_id := doc_id existing; ud_title := None; ud_content := None;
       ud_sourceType := None; ud_sourceMeta := None; ud_tags := None |}
    now (signed_in uid) db
  = (Ok (Some existing), db).
Proof.
  intros ((Hnd & _) & _) Hin <-. run_handler. read.
  pose proof (lookup_owned (R:=NotesDocument) _ existing Hnd Hin) as Hex.
  simpl in Hex. by rewrite Hex.
Qed.

(** C4. Delete Document with an id that names no document of the caller
    (no such row, or a row of another user) fails NOT_FOUND and leaves the
    three tables as they were. *)
Theorem deleteDocument_not_owned (uid : string) (id : Z) (db : Db) :
  (∀ d, d ∈ rows (NotesDocuments db) → doc_id d = id → doc_ownerId d ≠ uid) →
  deleteDocument {| dd_id := id |} (signed_in uid) db
  = (ActionError NOT_FOUND "Document not found.", db).
Proof.
  intros Hno. run_handler.
  pose proof (lookup_not_owned (R:=NotesDocument) _ id uid Hno) as Hnone.
  simpl in Hnone. rewrite Hnone. simpl. read.
  rewrite filter_all; [by rewrite set_table_same_docs|].
  intros d Hd [Hi Hu]. by apply (Hno d).
Qed.

(** C5. Create Summary for a [documentId] that names no document of the
    caller fails NOT_FOUND; no summary is inserted and the store is as it
    was. *)
Theorem createSummary_not_owned (uid : string) input (now : Date) (db : Db) :
  (∀ d, d ∈ rows (NotesDocuments db) →
        doc_id d = cs_documentId input → doc_ownerId d ≠ uid) →
  createSummary input now (signed_in uid) db
  = (ActionError NOT_FOUND "Document not found.", db).
Proof.
  intros Hno. run_handler. read.
  pose proof (lookup_not_owned (R:=NotesDocument) _ _ uid Hno) as Hnone.
  simpl in Hnone. by rewrite Hnone.
Qed.

Example sample_db_rows :
  (doc_id <$> rows (NotesDocuments sample_db),
   sum_id <$> rows (NoteSummaries sample_db),
   job_id <$> rows (SummaryJobs sample_db)) = ([1; 2], [1], [1; 2]).
Proof. reflexivity. Qed.

Example sample_db_wf : wf sample_db.
Proof. apply (bool_decide_unpack _). vm_compute. exact I. Qed.

(* ------------------------------------------------------------------ *)
(** * Summaries: listing *)
(* ------------------------------------------------------------------ *)

(** X24. List Summaries with a [documentId] other than 0 that names no
    document of the caller fails NOT_FOUND, also when the document exists
    for another user; the store is as it was. *)
Lemma listSummaries_not_owned (uid : string) (documentId : Z) (db : Db) :
  documentId ≠ 0 →
  (∀ d, d ∈ rows (NotesDocuments db) → doc_id d = documentId → doc_ownerId d ≠ uid) →
  listSummaries (Some {| ls_documentId := Some documentId |}) (signed_in uid) db
  = (ActionError NOT_FOUND "Document not found.", db).
Proof.
  intros Hnz Hno. run_handler. read.
  rewrite bool_decide_eq_true_2 by done.
  rewrite (filter_none (R:=NotesDocument)); [done|].
  intros d Hd Hid. apply list_elem_of_filter in Hd as [Hu Hd].
  apply (Hno d Hd); congruence.
Qed.

(** C6, at [documentId = 0]. alice owns no document 0 (there is none), and
    List Summaries with [documentId: 0] does not fail: it returns all her
    summaries, as it does without a filter. *)
Example listSummaries_documentId_zero :
  (∀ d, d ∈ rows (NotesDocuments sample_db) → doc_id d = 0 → doc_ownerId d ≠ "alice")
  ∧ listSummaries (Some {| ls_documentId := Some 0 |}) (signed_in "alice") sample_db
    = (Ok [ {| sum_id := 1; sum_documentId := 1; sum_ownerId := "alice";
               sum_summaryType := short; sum_content := "short one";
               sum_originalLength := Some 3; sum_summaryLength := None;
               sum_meta := None; sum_createdAt := 3000 |} ],
       sample_db).
Proof.
  split; [|by vm_compute].
  intros d Hd Hid. exfalso. revert Hid.
  let l := eval vm_compute in (rows (NotesDocuments sample_db)) in
  change (rows (NotesDocuments sample_db)) with l in Hd.
  repeat (apply elem_of_cons in Hd as [->|Hd]; [done|]).
  by apply elem_of_nil in Hd.
Qed.

(* ------------------------------------------------------------------ *)
(** * Jobs: listing *)
(* ------------------------------------------------------------------ *)

(** What List Jobs with a status filter returns: the caller's jobs with
    that status whose [documentId] is [null], 0, or a document of the
    caller. *)
Lemma listJobs_status_spec (uid : string) (status : JobStatus) (db : Db) :
  ∃ l, listJobs (Some {| lj_documentId := None; lj_status := Some status |})
         (signed_in uid) db = (Ok l, db)
       ∧ ∀ j, j ∈ l ↔
           j ∈ rows (SummaryJobs db) ∧ job_ownerId j = uid ∧ job_status j = status
           ∧ ∀ id, job_documentId j = Some id → id ≠ 0 → owns uid db id.
Proof.
  run_handler. read. eexists. split; [reflexivity|]. intros j.
  rewrite !list_elem_of_filter, andb_True, bool_decide_spec.
  assert (Is_true (if truthy (job_documentId j)
           then set_has (list_to_set (doc_id <$>
                  filter (λ d, doc_ownerId d = uid) (rows (NotesDocuments db))))
                  (job_documentId j)
           else true)
          ↔ ∀ id, job_documentId j = Some id → id ≠ 0 → owns uid db id) as ->.
  { destruct (job_documentId j) as [id|]; simpl; [|by split].
    case_bool_decide as Hz; simpl.
    - rewrite bool_decide_spec, elem_of_list_to_set, list_elem_of_fmap.
      split.
      + intros (d & -> & Hd) ? [= <-] _. apply list_elem_of_filter in Hd as [? ?].
        by exists d.
      + intros Hown. destruct (Hown id eq_refl Hz) as (d & Hd & <- & Hu).
        exists d. split; [done|]. by apply list_elem_of_filter.
    - split; [|done]. intros _ ? [= <-] ?. done. }
  tauto.
Qed.

(** C7. List Jobs with a status filter returns exactly the caller's jobs
    with that status whose [documentId], when set, names a document of the
    caller; the jobs without [documentId] are among them. The store backs
    this: it keeps no job whose [documentId] names no document. *)
Theorem listJobs_with_status (uid : string) (status : JobStatus) (db : Db) :
  wf db →
  ∃ l, listJobs (Some {| lj_documentId := None; lj_status := Some status |})
         (signed_in uid) db = (Ok l, db)
       ∧ ∀ j, j ∈ l ↔
           j ∈ rows (SummaryJobs db) ∧ job_ownerId j = uid ∧ job_status j = status
           ∧ ∀ id, job_documentId j = Some id → owns uid db id.
Proof.
  intros (Hd & _ & _ & Hrefs).
  destruct (listJobs_status_spec uid status db) as (l & Heq & Hl).
  exists l. split; [done|]. intros j. rewrite Hl.
  split; intros (Hj & Hu & Hs & Hdoc); split_and!; try done.
  - intros id Hid. apply Hdoc; [done|]. intros ->.
    apply references_hold_iff in Hrefs as [_ Hjobs].
    destruct (Hjobs j 0 Hj Hid) as (d & Hin & Hd0).
    destruct Hd as [_ Hpos]. rewrite Forall_forall in Hpos.
    specialize (Hpos d Hin). simpl in Hpos. lia.
  - intros id Hid _. by apply Hdoc.
Qed.

(* ------------------------------------------------------------------ *)
(** * Documents: reading back *)
(* ------------------------------------------------------------------ *)

(** While only the others make requests, my document stays, and stays
    without summaries if it had none: nobody else can summarise it. *)
Lemma run_by_others_alone calls U db D :
  wf db → by_others U calls →
  D ∈ rows (NotesDocuments db) → doc_ownerId D = U →
  (∀ s, s ∈ rows (NoteSummaries db) → sum_documentId s ≠ doc_id D) →
  D ∈ rows (NotesDocuments (run calls db))
  ∧ ∀ s, s ∈ rows (NoteSummaries (run calls db)) → sum_documentId s ≠ doc_id D.
Proof.
  unfold run, by_others. revert db.
  induction calls as [|call calls IH]; intros db Hwf Hcalls Hd HU Hnone; [done|].
  apply Forall_cons in Hcalls as [Hcall Hcalls].
  simpl. apply IH; [by apply wf_after|done| |done|].
  - apply (run_by_others_keeps [call] U db D); [done| |done..].
    by apply Forall_singleton.
  - destruct (context_cases call.1) as [[V HV]|Hsame]; [|by rewrite Hsame].
    rewrite HV in Hcall |- *.
    assert (V ≠ U) as HVU.
    { intros ->. by apply Hcall. }
    destruct (handler_effect call.2 V db Hwf)
      as [|? _ _|? ? ? _ _|? ? _ _|s _ _ Hown|? _ _ _|? ? ? _ _]; simpl; try done.
    intros s' [Hs'|Hs']%elem_of_app; [by apply Hnone|].
    apply list_elem_of_singleton in Hs'. subst s'. intros Hid.
    destruct Hown as (d & Hin & Hdi & Hdu). apply HVU. rewrite <- Hdu, <- HU.
    f_equal. destruct Hwf as ((Hnd & _) & _).
    apply (id_unique (R:=NotesDocument) (rows (NotesDocuments db))); [done..|].
    simpl. congruence.
Qed.

(** C8. A document created with [sourceMeta = meta] and read back by its
    creator through Get Document With Summaries, right away or after
    requests of other callers, is the created row, with [sourceMeta] equal
    to [meta]. *)
Theorem sourceMeta_round_trip (uid : string) input (meta : Json) now now' (db : Db) :
  wf db →
  cd_sourceMeta input = Some meta →
  ∃ D db1,
    createDocument input now now' (signed_in uid) db = (Ok (Some D), db1)
    ∧ doc_sourceMeta D = Some meta
    ∧ ∀ calls, by_others uid calls →
        ∃ summaries,
          getDocumentWithSummaries {| gd_id := doc_id D |} (signed_in uid) (run calls db1)
          = (Ok (D, summaries), run calls db1).
Proof.
  intros Hwf Hmeta. eexists _, _. split; [apply createDocument_eq|].
  set (D := Build_NotesDocument _ _ _ _ _ _ _ _ _).
  set (db1 := MkDb _ _ _).
  split; [exact Hmeta|]. intros calls Hcalls.
  assert (wf db1) as Hwf1.
  { exact (wf_after (CreateDocument input now now') (signed_in uid) db Hwf). }
  assert (D ∈ rows (NotesDocuments db1)) as Hin1.
  { simpl. apply elem_of_app. right. by left. }
  assert (∀ s, s ∈ rows (NoteSummaries db1) → sum_documentId s ≠ doc_id D) as Hnone1.
  { intros s Hs Hid. destruct Hwf as (_ & _ & _ & Hrefs).
    apply references_hold_iff in Hrefs as [Hsums _].
    destruct (Hsums s Hs) as (d & Hd & Hdi).
    pose proof (next_id_above (R:=NotesDocument) _ d Hd) as Hlt.
    simpl in *. lia. }
  destruct (run_by_others_alone calls uid db1 D Hwf1 Hcalls Hin1 eq_refl Hnone1)
    as [Hin Hnone].
  assert (NoDup (doc_id <$> rows (NotesDocuments (run calls db1)))) as Hnd
    by apply (wf_run calls db1 Hwf1).
  pose proof (lookup_owned (R:=NotesDocument) _ D Hnd Hin) as Hex.
  eexists.
  unfold getDocumentWithSummaries, limit1, requireUser, db_select, bind, ret, signed_in.
  simpl in *. read. rewrite Hex. simpl.
  rewrite (filter_none (R:=NoteSummary)); [done|].
  intros s Hs. by apply Hnone.
Qed.

(* ------------------------------------------------------------------ *)
(** * Jobs: update *)
(* ------------------------------------------------------------------ *)

Lemma set_job_updateData input j :
  job_output (set_job (uj_updateData input) j)
    = from_option Some (job_output j) (uj_output input)
  ∧ job_status (set_job (uj_updateData input) j)
    = default (job_status j) (uj_status input).
Proof. unfold uj_updateData. by destruct (uj_output input), (uj_status input). Qed.

Lemma run_keeps_jobs calls db j :
  wf db → j ∈ rows (SummaryJobs db) →
  ∃ j', j' ∈ rows (SummaryJobs (run calls db))
        ∧ job_id j' = job_id j ∧ job_ownerId j' = job_ownerId j.
Proof.
  unfold run. revert db j.
  induction calls as [|call calls IH]; intros db j Hwf Hj; [by exists j|].
  simpl. destruct (after_step call.2 call.1 db Hwf) as (uid & _ & _ & Hstep).
  destruct (table_step_keeps (R:=SummaryJob) _ _ _ j Hstep Hj)
    as (j1 & Hj1 & Hid & Hown). simpl in Hid, Hown.
  destruct (IH _ j1 (wf_after _ _ _ Hwf) Hj1) as (j' & Hj' & Hid' & Hown').
  exists j'. split; [done|]. split; congruence.
Qed.

(** C9. Update Job on a job the caller owns returns that job with at most
    [output] and [status] replaced: the stored row becomes the returned
    one, every other row of the job table and the two other tables stay as
    they were. No sequence of requests removes a job. With neither
    [output] nor [status] in the input the stored row is returned and the
    store is as it was. *)
Theorem updateJob_frame (uid : string) input (db : Db) (existing : SummaryJob) :
  wf db →
  existing ∈ rows (SummaryJobs db) →
  job_id existing = uj_id input →
  job_ownerId existing = uid →
  (∃ job db',
      updateJob input (signed_in uid) db = (Ok (Some job), db')
      ∧ NotesDocuments db' = NotesDocuments db
      ∧ NoteSummaries db' = NoteSummaries db
      ∧ rows (SummaryJobs db')
        = (λ j, if decide (job_id j = job_id existing) then job else j)
            <$> rows (SummaryJobs db)
      ∧ job_id job = job_id existing
      ∧ job_documentId job = job_documentId existing
      ∧ job_ownerId job = job_ownerId existing
      ∧ job_jobType job = job_jobType existing
      ∧ job_input job = job_input existing
      ∧ job_createdAt job = job_createdAt existing
      ∧ job_output job = from_option Some (job_output existing) (uj_output input)
      ∧ job_status job = default (job_status existing) (uj_status input))
  ∧ (∀ calls j, j ∈ rows (SummaryJobs db) →
       ∃ j', j' ∈ rows (SummaryJobs (run calls db))
             ∧ job_id j' = job_id j ∧ job_ownerId j' = job_ownerId j)
  ∧ (uj_output input = None → uj_status input = None →
       updateJob input (signed_in uid) db = (Ok (Some existing), db)).
Proof.
  intros Hwf Hin Hid Huid.
  assert (NoDup (job_id <$> rows (SummaryJobs db))) as Hnd by apply Hwf.
  pose proof (lookup_owned (R:=SummaryJob) _ existing Hnd Hin) as Hex.
  simpl in Hex. rewrite Hid, Huid in Hex.
  assert (∀ j, j ∈ rows (SummaryJobs db) → job_id j = job_id existing → j = existing)
    as Huniq.
  { intros j Hj Hj'. by apply (id_unique (R:=SummaryJob) (rows (SummaryJobs db))). }
  split_and!.
  - run_handler. read. rewrite Hex. simpl.
    case_bool_decide as Hdata; simpl.
    + (* nothing to set: the row is returned as it is *)
      exists existing, db. split_and!; try done.
      * symmetry. etrans; [|apply list_fmap_id].
        apply list_fmap_ext. intros i j Hj. simpl. case_decide; [|done].
        symmetry. apply Huniq; [|done]. by eapply list_elem_of_lookup_2.
      * apply nil_length_inv in Hdata. unfold uj_updateData in Hdata.
        by destruct (uj_output input), (uj_status input).
      * apply nil_length_inv in Hdata. unfold uj_updateData in Hdata.
        by destruct (uj_output input), (uj_status input).
    + (* one update statement *)
      read. rewrite (filter_unique (R:=SummaryJob) _ _ existing);
        [|done..|intros x Hx; simpl; congruence].
      destruct (set_job_keys (uj_updateData input) existing)
        as (? & ? & ? & ? & ? & ?).
      destruct (set_job_updateData input existing) as [? ?].
      eexists _, _. split; [reflexivity|]. simpl. split_and!; try done.
      apply list_fmap_ext. intros i j Hj. simpl.
      apply list_elem_of_lookup_2 in Hj. rewrite <- Hid.
      case_decide as Hj'; [|done]. by rewrite (Huniq j Hj Hj').
  - intros calls j Hj. by apply run_keeps_jobs.
  - intros Ho Hs. run_handler. read. rewrite Hex. simpl.
    unfold uj_updateData. by rewrite Ho, Hs.
Qed.

(* ------------------------------------------------------------------ *)
(** * The document id 0 *)
(* ------------------------------------------------------------------ *)

(** C10, as stated, at alice's request for a job on document 0: the
    request does not fail NOT_FOUND, but neither is a job stored. The
    store refuses the row, since no document has the id 0. *)
Lemma createJob_zero_is_refused :
  createJob job_on_nothing 1000 (signed_in "alice") sample_db
  = (Uncaught SQLITE_CONSTRAINT_FOREIGNKEY, sample_db)
  ∧ ¬ ∃ job db',
        createJob job_on_nothing 1000 (signed_in "alice") sample_db
        = (Ok (Some job), db').
Proof.
  assert (createJob job_on_nothing 1000 (signed_in "alice") sample_db
          = (Uncaught SQLITE_CONSTRAINT_FOREIGNKEY, sample_db)) as Heq
    by (by vm_compute).
  split; [done|]. intros (job & db' & Hok). congruence.
Qed.

(** C10, amended. Create Job with [documentId: 0] does no document
    lookup and so does not fail NOT_FOUND; its insert is refused by the
    reference of [SummaryJobs.documentId], no document having the id 0,
    and nothing is stored. List Summaries and List Jobs with
    [documentId: 0] do what they do without a [documentId]. *)
Theorem documentId_zero_unchecked (context : ActionAPIContext) (uid : string) (db : Db) :
  wf db →
  (∀ jobType input output status now,
     createJob {| cj_documentId := Some 0; cj_jobType := jobType;
                  cj_input := input; cj_output := output;
                  cj_status := status |} now (signed_in uid) db
     = (Uncaught SQLITE_CONSTRAINT_FOREIGNKEY, db))
  ∧ listSummaries (Some {| ls_documentId := Some 0 |}) context db
    = listSummaries (Some {| ls_documentId := None |}) context db
  ∧ listSummaries (Some {| ls_documentId := Some 0 |}) context db
    = listSummaries None context db
  ∧ ∀ status,
      listJobs (Some {| lj_documentId := Some 0; lj_status := status |}) context db
      = listJobs (Some {| lj_documentId := None; lj_status := status |}) context db.
Proof.
  intros ((_ & Hpos) & _). split_and!; try reflexivity.
  intros jobType input output status now. run_handler.
  rewrite bool_decide_eq_false_2; [done|].
  intros (d & Hid & Hd)%list_elem_of_fmap.
  rewrite Forall_forall in Hpos. specialize (Hpos d Hd). simpl in Hpos. lia.
Qed.
(** * The theorems at the sample store *)
(* ------------------------------------------------------------------ *)


Lemma mutations_ownership_scoped_witness :
  wf sample_db
  ∧ let db' := after (UpdateJob finish_job) (signed_in "alice") sample_db in
    (others "alice" (rows (NotesDocuments db')) = others "alice" (rows (NotesDocuments sample_db))
     ∧ others "alice" (rows (NoteSummaries db')) = others "alice" (rows (NoteSummaries sample_db))
     ∧ others "alice" (rows (SummaryJobs db')) = others "alice" (rows (SummaryJobs sample_db)))
    ∧ (∀ d, d ∈ rows (NotesDocuments db') → d ∉ rows (NotesDocuments sample_db) →
            doc_ownerId d = "alice")
    ∧ (∀ s, s ∈ rows (NoteSummaries db') → s ∉ rows (NoteSummaries sample_db) →
            sum_ownerId s = "alice")
    ∧ (∀ j, j ∈ rows (SummaryJobs db') → j ∉ rows (SummaryJobs sample_db) →
            job_ownerId j = "alice").
Proof.
  split; [by_evaluation|].
  apply (mutations_ownership_scoped (UpdateJob finish_job) "alice" sample_db).
  by_evaluation.
Defined.

Lemma updateDocument_id_only_witness :
  wf sample_db
  ∧ alice_meeting ∈ rows (NotesDocuments sample_db)
  ∧ doc_ownerId alice_meeting = "alice"
  ∧ updateDocument
      {| ud_id := 1; ud_title := None; ud_content := None;
         ud_sourceType := None; ud_sourceMeta := None; ud_tags := None |}
      7000 (signed_in "alice") sample_db
    = (Ok (Some alice_meeting), sample_db).
Proof.
  assert (alice_meeting ∈ rows (NotesDocuments sample_db)) as Hin
    by (vm_compute; constructor).
  split_and!; [by_evaluation|exact Hin|reflexivity|].
  apply (updateDocument_id_only "alice" 7000 sample_db alice_meeting);
    [by_evaluation|exact Hin|reflexivity].
Defined.

Lemma deleteDocument_not_owned_witness :
  (∀ d, d ∈ rows (NotesDocuments sample_db) → doc_id d = 2 → doc_ownerId d ≠ "alice")
  ∧ deleteDocument {| dd_id := 2 |} (signed_in "alice") sample_db
    = (ActionError NOT_FOUND "Document not found.", sample_db).
Proof.
  assert (∀ d, d ∈ rows (NotesDocuments sample_db) → doc_id d = 2 →
               doc_ownerId d ≠ "alice") as Hno by by_rows.
  split; [exact Hno|].
  apply (deleteDocument_not_owned "alice" 2 sample_db). exact Hno.
Defined.

Lemma createSummary_not_owned_witness :
  (∀ d, d ∈ rows (NotesDocuments sample_db) →
        doc_id d = cs_documentId summary_of_lecture → doc_ownerId d ≠ "alice")
  ∧ createSummary summary_of_lecture 7000 (signed_in "alice") sample_db
    = (ActionError NOT_FOUND "Document not found.", sample_db).
Proof.
  assert (∀ d, d ∈ rows (NotesDocuments sample_db) →
               doc_id d = cs_documentId summary_of_lecture →
               doc_ownerId d ≠ "alice") as Hno by by_rows.
  split; [exact Hno|].
  apply (createSummary_not_owned "alice" summary_of_lecture 7000 sample_db). exact Hno.
Defined.

Lemma sourceMeta_round_trip_witness :
  wf sample_db
  ∧ cd_sourceMeta meeting = Some (JObj [("a", JNum 1)])
  ∧ ∃ D db1,
      createDocument meeting 6000 6000 (signed_in "alice") sample_db = (Ok (Some D), db1)
      ∧ doc_sourceMeta D = Some (JObj [("a", JNum 1)])
      ∧ ∀ calls, by_others "alice" calls →
          ∃ summaries,
            getDocumentWithSummaries {| gd_id := doc_id D |} (signed_in "alice")
              (run calls db1)
            = (Ok (D, summaries), run calls db1).
Proof.
  split_and!; [by_evaluation|reflexivity|].
  apply (sourceMeta_round_trip "alice" meeting (JObj [("a", JNum 1)]) 6000 6000 sample_db);
    [by_evaluation|reflexivity].
Defined.

Lemma updateJob_frame_witness :
  wf sample_db
  ∧ alice_job ∈ rows (SummaryJobs sample_db)
  ∧ job_id alice_job = uj_id finish_job
  ∧ job_ownerId alice_job = "alice"
  ∧ (∃ job db',
        updateJob finish_job (signed_in "alice") sample_db = (Ok (Some job), db')
        ∧ NotesDocuments db' = NotesDocuments sample_db
        ∧ NoteSummaries db' = NoteSummaries sample_db
        ∧ rows (SummaryJobs db')
          = (λ j, if decide (job_id j = job_id alice_job) then job else j)
              <$> rows (SummaryJobs sample_db)
        ∧ job_id job = job_id alice_job
        ∧ job_documentId job = job_documentId alice_job
        ∧ job_ownerId job = job_ownerId alice_job
        ∧ job_jobType job = job_jobType alice_job
        ∧ job_input job = job_input alice_job
        ∧ job_createdAt job = job_createdAt alice_job
        ∧ job_output job = from_option Some (job_output alice_job) (uj_output finish_job)
        ∧ job_status job = default (job_status alice_job) (uj_status finish_job))
  ∧ (∀ calls j, j ∈ rows (SummaryJobs sample_db) →
       ∃ j', j' ∈ rows (SummaryJobs (run calls sample_db))
             ∧ job_id j' = job_id j ∧ job_ownerId j' = job_ownerId j)
  ∧ (uj_output finish_job = None → uj_status finish_job = None →
       updateJob finish_job (signed_in "alice") sample_db = (Ok (Some alice_job), sample_db)).
Proof.
  assert (alice_job ∈ rows (SummaryJobs sample_db)) as Hin
    by (vm_compute; do 2 constructor).
  split_and!; [by_evaluation|exact Hin|reflexivity|reflexivity|..];
    apply (updateJob_frame "alice" finish_job sample_db alice_job);
    (by_evaluation || exact Hin || reflexivity).
Defined.

Lemma listJobs_with_status_witness :
  wf sample_db
  ∧ ∃ l, listJobs (Some {| lj_documentId := None; lj_status := Some failed |})
           (signed_in "bob") sample_db = (Ok l, sample_db)
         ∧ ∀ j, j ∈ l ↔
             j ∈ rows (SummaryJobs sample_db) ∧ job_ownerId j = "bob"
             ∧ job_status j = failed
             ∧ ∀ id, job_documentId j = Some id → owns "bob" sample_db id.
Proof.
  split; [by_evaluation|].
  apply (listJobs_with_status "bob" failed sample_db). by_evaluation.
Defined.

Lemma documentId_zero_unchecked_witness :
  wf sample_db
  ∧ (∀ jobType input output status now,
       createJob {| cj_documentId := Some 0; cj_jobType := jobType;
                    cj_input := input; cj_output := output;
                    cj_status := status |} now (signed_in "alice") sample_db
       = (Uncaught SQLITE_CONSTRAINT_FOREIGNKEY, sample_db))
  ∧ listSummaries (Some {| ls_documentId := Some 0 |}) (signed_in "alice") sample_db
    = listSummaries (Some {| ls_documentId := None |}) (signed_in "alice") sample_db
  ∧ listSummaries (Some {| ls_documentId := Some 0 |}) (signed_in "alice") sample_db
    = listSummaries None (signed_in "alice") sample_db
  ∧ ∀ status,
      listJobs (Some {| lj_documentId := Some 0; lj_status := status |})
        (signed_in "alice") sample_db
      = listJobs (Some {| lj_documentId := None; lj_status := status |})
          (signed_in "alice") sample_db.
Proof.
  split; [by_evaluation|].
  apply (documentId_zero_unchecked (signed_in "alice") "alice" sample_db).
  by_evaluation.
Defined.

(* ------------------------------------------------------------------ *)
(** * The scenario of two users *)
(* ------------------------------------------------------------------ *)

(** bob cannot rename alice's document; alice can, and [updatedAt] moves. *)
Example rename_by_other_user :
  updateDocument rename_meeting 9000 (signed_in "bob") sample_db
  = (ActionError NOT_FOUND "Document not found.", sample_db).
Proof. reflexivity. Qed.

Example rename_by_owner :
  (updateDocument rename_meeting 9000 (signed_in "alice") sample_db).1
  = Ok (Some {| doc_id := 1; doc_ownerId := "alice"; doc_title := "x";
                doc_content := "..."; doc_sourceType := manual;
                doc_sourceMeta := Some (JObj [("a", JNum 1)]); doc_tags := None;
                doc_createdAt := 1000; doc_updatedAt := 9000 |}).
Proof. reflexivity. Qed.

(** An update of job 1, which is bob's, by alice: NOT_FOUND, nothing set. *)
Example updateJob_by_other_user :
  updateJob {| uj_id := 1; uj_output := None; uj_status := Some completed |}
    (signed_in "alice") sample_db
  = (ActionError NOT_FOUND "Job not found.", sample_db).
Proof. reflexivity. Qed.

(** Without a user every handler stops at [requireUser]. *)
Example listDocuments_unauthorized :
  (listDocuments {| locals := None |} sample_db).1
  = ActionError UNAUTHORIZED "You must be signed in to perform this action.".
Proof. reflexivity. Qed.

(* ------------------------------------------------------------------ *)
(** * Further properties of the handlers *)
(* ------------------------------------------------------------------ *)

(** ** [requireUser] *)

(** X1. Without a user in the context every action throws UNAUTHORIZED
    from [requireUser], before its first statement: the store is as it
    was, whatever the request and its input. *)
Theorem unauthorized_before_any_statement (req : Request)
    (context : ActionAPIContext) (db : Db) :
  caller context = None →
  server req context db
  = (ActionError UNAUTHORIZED "You must be signed in to perform this action.", db).
Proof.
  destruct context as [[[[[uid]|]]|]]; intros Hc; [done|..]; by destruct req.
Qed.

Lemma unauthorized_before_any_statement_witness :
  caller anonymous = None
  ∧ server (DeleteDocument {| dd_id := 1 |}) anonymous sample_db
    = (ActionError UNAUTHORIZED "You must be signed in to perform this action.",
       sample_db).
Proof.
  split; [reflexivity|].
  apply (unauthorized_before_any_statement (DeleteDocument {| dd_id := 1 |})
           anonymous sample_db).
  reflexivity.
Defined.

(** ** The four reading actions *)

(** X2. List Documents, Get Document With Summaries, List Summaries and
    List Jobs leave the store as it was, whether they return rows or
    throw, for every context and input. *)
Theorem reads_change_nothing (context : ActionAPIContext) (db : Db) :
  after ListDocuments context db = db
  ∧ (∀ input, after (GetDocumentWithSummaries input) context db = db)
  ∧ (∀ input, after (ListSummaries input) context db = db)
  ∧ (∀ input, after (ListJobs input) context db = db).
Proof.
  destruct (context_cases context) as [[uid ->]|Hsame]; [|by split_and!].
  split_and!; try intros input; run_handler; read.
  - done.
  - rewrite head_take1. destruct (head _); simpl; [|done]. by destruct (returning _).
  - destruct (truthy _); simpl; [case_bool_decide; simpl; [done|]|];
      by destruct (returning _).
  - by destruct (truthy _); simpl; [case_bool_decide|]; simpl; read.
Qed.

(** ** Update Document *)

Lemma set_document_merge input now d :
  set_document (ud_updateData input ++ [set_updatedAt now]) d
  = {| doc_id := doc_id d; doc_ownerId := doc_ownerId d;
       doc_title := default (doc_title d) (ud_title input);
       doc_content := default (doc_content d) (ud_content input);
       doc_sourceType := default (doc_sourceType d) (ud_sourceType input);
       doc_sourceMeta := from_option Some (doc_sourceMeta d) (ud_sourceMeta input);
       doc_tags := from_option Some (doc_tags d) (ud_tags input);
       doc_createdAt := doc_createdAt d; doc_updatedAt := now |}.
Proof.
  unfold ud_updateData, ud_entries, set_document.
  by destruct (ud_title input), (ud_content input), (ud_sourceType input),
    (ud_sourceMeta input), (ud_tags input).
Qed.

(** X3. Update Document with at least one field, on a document the caller
    owns: each supplied field replaces the stored one, each absent field
    keeps it, [updatedAt] becomes the instant of the call, and [id],
    [ownerId] and [createdAt] stay. The merged row is what is returned and
    what is stored in place of the old one; nothing else in the store
    changes. *)
Theorem updateDocument_merges (uid : string) input (now : Date) (db : Db)
    (existing : NotesDocument) :
  wf db →
  existing ∈ rows (NotesDocuments db) →
  doc_id existing = ud_id input →
  doc_ownerId existing = uid →
  ud_updateData input ≠ [] →
  let document :=
    {| doc_id := doc_id existing; doc_ownerId := doc_ownerId existing;
       doc_title := default (doc_title existing) (ud_title input);
       doc_content := default (doc_content existing) (ud_content input);
       doc_sourceType := default (doc_sourceType existing) (ud_sourceType input);
       doc_sourceMeta :=
         from_option Some (doc_sourceMeta existing) (ud_sourceMeta input);
       doc_tags := from_option Some (doc_tags existing) (ud_tags input);
       doc_createdAt := doc_createdAt existing; doc_updatedAt := now |} in
  updateDocument input now (signed_in uid) db
  = (Ok (Some document),
     MkDb (MkTable ((λ d, if decide (doc_id d = doc_id existing) then document else d)
                      <$> rows (NotesDocuments db)))
          (NoteSummaries db) (SummaryJobs db)).
Proof.
  intros Hwf Hin Hid Huid Hdata document.
  assert (NoDup (doc_id <$> rows (NotesDocuments db))) as Hnd by apply Hwf.
  pose proof (lookup_owned (R:=NotesDocument) _ existing Hnd Hin) as Hex.
  simpl in Hex. rewrite Hid, Huid in Hex.
  run_handler. read. rewrite Hex. simpl.
  rewrite bool_decide_eq_false_2
    by (intros Hlen; by apply Hdata, nil_length_inv).
  simpl. read.
  rewrite (filter_unique (R:=NotesDocument) _ _ existing);
    [|done..|intros x [Hx _]; simpl; congruence].
  simpl. rewrite set_document_merge. fold document.
  do 3 f_equal. apply list_fmap_ext. intros i d Hd. simpl.
  apply list_elem_of_lookup_2 in Hd.
  destruct (decide (doc_id d = doc_id existing)) as [Hsame|Hdiff].
  - assert (d = existing) as ->
      by (by apply (id_unique (R:=NotesDocument) (rows (NotesDocuments db)))).
    rewrite decide_True by done. by rewrite set_document_merge.
  - rewrite decide_False; [done|]. intros [? _]. apply Hdiff. congruence.
Qed.

(** X4. Update Document with an id that names no document of the caller
    fails NOT_FOUND whatever fields come with it, and sets nothing. *)
Theorem updateDocument_not_owned (uid : string) input (now : Date) (db : Db) :
  (∀ d, d ∈ rows (NotesDocuments db) → doc_id d = ud_id input → doc_ownerId d ≠ uid) →
  updateDocument input now (signed_in uid) db
  = (ActionError NOT_FOUND "Document not found.", db).
Proof.
  intros Hno. run_handler. read.
  pose proof (lookup_not_owned (R:=NotesDocument) _ _ uid Hno) as Hnone.
  simpl in Hnone. by rewrite Hnone.
Qed.

(** ** Delete Document *)

(** The delete of a document without dependents is not refused. *)
Lemma not_referenced (db : Db) (l : list NotesDocument) :
  (∀ d, d ∈ l → ¬ has_dependents db (doc_id d)) →
  existsb (referenced NotesDocumentsT db) l = false.
Proof.
  intros Hfree. apply not_true_iff_false. intros Hex.
  apply existsb_exists in Hex as (d & Hd & Href).
  apply list_elem_of_In in Hd. by apply (Hfree d Hd), referenced_dependents.
Qed.

(** X5. Delete Document on a document the caller owns, and that no summary
    and no job refers to, returns the stored row and removes that row
    alone; the summaries and jobs tables are untouched. *)
Theorem deleteDocument_owned (uid : string) (db : Db) (existing : NotesDocument) :
  wf db →
  existing ∈ rows (NotesDocuments db) →
  doc_ownerId existing = uid →
  ¬ has_dependents db (doc_id existing) →
  deleteDocument {| dd_id := doc_id existing |} (signed_in uid) db
  = (Ok existing,
     MkDb (MkTable (filter (λ d, doc_id d ≠ doc_id existing) (rows (NotesDocuments db))))
          (NoteSummaries db) (SummaryJobs db)).
Proof.
  intros Hwf Hin Huid Hfree.
  assert (NoDup (doc_id <$> rows (NotesDocuments db))) as Hnd by apply Hwf.
  run_handler.
  rewrite (filter_unique (R:=NotesDocument) _ _ existing);
    [|done..|by intros x [? _]].
  pose proof (not_referenced db [existing]) as Hnot. simpl in Hnot |- *.
  rewrite Hnot by (intros d ->%list_elem_of_singleton; done).
  simpl. read. do 3 f_equal. apply filter_iff_in. intros d Hd. split.
  - intros Hn Hsame. apply Hn. split; [done|].
    assert (d = existing) as ->
      by (by apply (id_unique (R:=NotesDocument) (rows (NotesDocuments db)))).
    done.
  - intros Hdiff [? _]. done.
Qed.

(** X25. Delete Document on a document the caller owns that a summary or
    a job still refers to is refused by the store: the handler throws the
    store's SQLITE_CONSTRAINT_FOREIGNKEY, not NOT_FOUND, and nothing is
    removed. *)
Theorem deleteDocument_with_dependents (uid : string) (db : Db)
    (existing : NotesDocument) :
  existing ∈ rows (NotesDocuments db) →
  doc_ownerId existing = uid →
  has_dependents db (doc_id existing) →
  deleteDocument {| dd_id := doc_id existing |} (signed_in uid) db
  = (Uncaught SQLITE_CONSTRAINT_FOREIGNKEY, db).
Proof.
  intros Hin Huid Hdep. run_handler.
  assert (existsb (referenced NotesDocumentsT db)
            (filter (λ d, doc_id d = doc_id existing ∧ doc_ownerId d = uid)
               (rows (NotesDocuments db))) = true) as Href.
  { apply existsb_exists. exists existing. split.
    - apply list_elem_of_In. by apply list_elem_of_filter.
    - by apply referenced_dependents. }
  simpl in Href. by rewrite Href.
Qed.

Lemma after_deleteDocument uid id db :
  (∀ d, d ∈ rows (NotesDocuments db) → doc_id d = id → doc_ownerId d = uid →
        ¬ has_dependents db id) →
  after (DeleteDocument {| dd_id := id |}) (signed_in uid) db
  = MkDb (MkTable (filter (λ d, ¬ (doc_id d = id ∧ doc_ownerId d = uid))
                     (rows (NotesDocuments db))))
         (NoteSummaries db) (SummaryJobs db).
Proof.
  intros Hfree. run_handler.
  pose proof (not_referenced db
    (filter (λ d, doc_id d = id ∧ doc_ownerId d = uid) (rows (NotesDocuments db))))
    as Hnot.
  simpl in Hnot. rewrite Hnot.
  - simpl. read. by destruct (head _).
  - intros d [[Hid Hu] Hd]%list_elem_of_filter. rewrite Hid. by apply (Hfree d).
Qed.

Lemma no_document_after_delete uid db existing :
  wf db → existing ∈ rows (NotesDocuments db) → doc_ownerId existing = uid →
  ¬ has_dependents db (doc_id existing) →
  ∀ d, d ∈ rows (NotesDocuments
                   (after (DeleteDocument {| dd_id := doc_id existing |})
                      (signed_in uid) db)) →
       doc_id d ≠ doc_id existing.
Proof.
  intros Hwf Hin Huid Hfree d. rewrite after_deleteDocument by done. simpl.
  intros [Hn Hd]%list_elem_of_filter Hsame. apply Hn. split; [done|].
  assert (d = existing) as ->; [|done].
  apply (id_unique (R:=NotesDocument) (rows (NotesDocuments db))); [apply Hwf|done..].
Qed.

(** The scoped lookup of a document finds nothing when no document has
    the id. *)
Lemma lookup_absent (l : list NotesDocument) (i : Z) (uid : string) :
  (∀ d, d ∈ l → doc_id d ≠ i) →
  filter (λ d, doc_id d = i ∧ doc_ownerId d = uid) l = [].
Proof. intros Hno. apply filter_none. intros d Hd [Hi _]. by apply (Hno d). Qed.

(** X6. Right after its owner has deleted a document that nothing
    referred to, the id is NOT_FOUND for everybody: reading it with its
    summaries, deleting it again, updating it and summarising it all fail,
    and none of them changes the store. *)
Theorem deleted_document_not_found (uid : string) (db : Db) (existing : NotesDocument) :
  wf db →
  existing ∈ rows (NotesDocuments db) →
  doc_ownerId existing = uid →
  ¬ has_dependents db (doc_id existing) →
  let id := doc_id existing in
  let db' := after (DeleteDocument {| dd_id := id |}) (signed_in uid) db in
  ∀ v : string,
    getDocumentWithSummaries {| gd_id := id |} (signed_in v) db'
    = (ActionError NOT_FOUND "Document not found.", db')
    ∧ deleteDocument {| dd_id := id |} (signed_in v) db'
      = (ActionError NOT_FOUND "Document not found.", db')
    ∧ (∀ input now, ud_id input = id →
         updateDocument input now (signed_in v) db'
         = (ActionError NOT_FOUND "Document not found.", db'))
    ∧ (∀ input now, cs_documentId input = id →
         createSummary input now (signed_in v) db'
         = (ActionError NOT_FOUND "Document not found.", db')).
Proof.
  intros Hwf Hin Huid Hfree id db' v.
  pose proof (no_document_after_delete uid db existing Hwf Hin Huid Hfree) as Hgone.
  fold id db' in Hgone.
  pose proof (lookup_absent _ id v Hgone) as Hnone.
  split_and!.
  - run_handler. read. by rewrite Hnone.
  - run_handler. rewrite Hnone. simpl. read.
    rewrite filter_all; [by rewrite set_table_same_docs|].
    intros d Hd [Hi _]. by apply (Hgone d).
  - intros input now Hid. run_handler. read. rewrite Hid. by rewrite Hnone.
  - intros input now Hid. run_handler. read. rewrite Hid. by rewrite Hnone.
Qed.
(* ------------------------------------------------------------------ *)
(** * The two filtered listings *)
(* ------------------------------------------------------------------ *)

(** [accessible_documents]: NOT_FOUND when a truthy [documentId] names no
    document of the caller, else the caller's documents, cut down to that
    id if there is one. *)
Lemma accessible_documents_cases (f : option Z) (uid : string) (db : Db) :
  (accessible_documents f uid db = (ActionError NOT_FOUND "Document not found.", db)
   ∧ truthy f
   ∧ ∀ d, d ∈ rows (NotesDocuments db) → Some (doc_id d) = f → doc_ownerId d ≠ uid)
  ∨ (∃ docs,
       accessible_documents f uid db = (Ok docs, db)
       ∧ (truthy f → docs ≠ [])
       ∧ ∀ d, d ∈ docs ↔
           d ∈ rows (NotesDocuments db) ∧ doc_ownerId d = uid
           ∧ (truthy f → Some (doc_id d) = f)).
Proof.
  unfold accessible_documents, db_select, bind, ret, throw. simpl. read.
  destruct (truthy f) eqn:Hf; simpl.
  - case_bool_decide as Hlen; simpl.
    + left. split_and!; [done..|].
      intros d Hd Hid Hu. apply nil_length_inv in Hlen.
      eapply (filter_nil_not_elem_of _ _ d); [exact Hlen|done|].
      by apply list_elem_of_filter.
    + right. eexists. split_and!; [done| |].
      * intros _ Hnil. apply Hlen. by rewrite Hnil.
      * intros d. rewrite !list_elem_of_filter. unfold Is_true. tauto.
  - right. eexists. split_and!; [done..|].
    intros d. rewrite list_elem_of_filter. unfold Is_true. tauto.
Qed.

Lemma listSummaries_cases (input : option ListSummariesInput) (uid : string) (db : Db) :
  let f := input ≫= ls_documentId in
  let mine := filter (λ s, sum_ownerId s = uid) (rows (NoteSummaries db)) in
  (listSummaries input (signed_in uid) db
   = (ActionError NOT_FOUND "Document not found.", db)
   ∧ truthy f
   ∧ ∀ d, d ∈ rows (NotesDocuments db) → Some (doc_id d) = f → doc_ownerId d ≠ uid)
  ∨ (∃ l,
       listSummaries input (signed_in uid) db
       = (match returning mine with
          | Ok _ => Ok l
          | ActionError c msg => ActionError c msg
          | Uncaught e => Uncaught e
          end, db)
       ∧ (truthy f → ∃ i, f = Some i ∧ owns uid db i)
       ∧ ∀ s, s ∈ l ↔
           s ∈ rows (NoteSummaries db) ∧ sum_ownerId s = uid
           ∧ owns uid db (sum_documentId s)
           ∧ (truthy f → Some (sum_documentId s) = f)).
Proof.
  intros f mine.
  unfold listSummaries, requireUser, db_select, bind, ret, signed_in. simpl.
  fold f mine.
  destruct (accessible_documents_cases f uid db)
    as [(-> & Hf & Hno)|(docs & -> & Hne & Hdocs)]; [by left|right].
  exists (filter (λ summary, sum_documentId summary ∈ doc_id <$> docs) mine).
  split_and!.
  - unfold returning, mine. by destruct (forallb _ _).
  - intros Hf. destruct docs as [|d docs]; [by destruct (Hne Hf)|].
    destruct (proj1 (Hdocs d)) as (Hd & Hu & Hi); [left|].
    exists (doc_id d). split; [by rewrite (Hi Hf)|]. by exists d.
  - intros s. unfold mine. rewrite !list_elem_of_filter, list_elem_of_fmap. split.
    + intros ((d & Hid & Hd) & Hu & Hs). apply Hdocs in Hd as (Hd & Hdu & Hi).
      split_and!; [done..|by exists d|intros Hf; rewrite Hid; by apply Hi].
    + intros (Hs & Hu & (d & Hd & Hid & Hdu) & Hi). split_and!; [|done..].
      exists d. split; [done|]. apply Hdocs. split_and!; [done..|].
      intros Hf. rewrite Hid. by apply Hi.
Qed.

Lemma listJobs_cases (input : option ListJobsInput) (uid : string) (db : Db) :
  let f := input ≫= lj_documentId in
  (listJobs input (signed_in uid) db
   = (ActionError NOT_FOUND "Document not found.", db)
   ∧ truthy f
   ∧ ∀ d, d ∈ rows (NotesDocuments db) → Some (doc_id d) = f → doc_ownerId d ≠ uid)
  ∨ (∃ l,
       listJobs input (signed_in uid) db = (Ok l, db)
       ∧ (truthy f → ∃ i, f = Some i ∧ owns uid db i)
       ∧ ∀ j, j ∈ l ↔
           j ∈ rows (SummaryJobs db) ∧ job_ownerId j = uid
           ∧ (∀ status, input ≫= lj_status = Some status → job_status j = status)
           ∧ (∀ i, job_documentId j = Some i → i ≠ 0 →
                owns uid db i ∧ (truthy f → Some i = f))).
Proof.
  intros f. unfold listJobs, requireUser, db_select, bind, ret, signed_in. simpl.
  fold f.
  destruct (accessible_documents_cases f uid db)
    as [(-> & Hf & Hno)|(docs & -> & Hne & Hdocs)]; [by left|right].
  read. eexists. split_and!; [done| |].
  - intros Hf. destruct docs as [|d docs]; [by destruct (Hne Hf)|].
    destruct (proj1 (Hdocs d)) as (Hd & Hu & Hi); [left|].
    exists (doc_id d). split; [by rewrite (Hi Hf)|]. by exists d.
  - intros j. rewrite !list_elem_of_filter, andb_True.
    assert (Is_true (if truthy (job_documentId j)
                     then set_has (list_to_set (doc_id <$> docs)) (job_documentId j)
                     else true)
            ↔ ∀ i, job_documentId j = Some i → i ≠ 0 →
                   owns uid db i ∧ (truthy f → Some i = f)) as ->.
    { destruct (job_documentId j) as [i|]; simpl; [|by split].
      case_bool_decide as Hz; simpl.
      - rewrite bool_decide_spec, elem_of_list_to_set, list_elem_of_fmap. split.
        + intros (d & -> & Hd) ? [= <-] _. apply Hdocs in Hd as (Hd & Hu & Hi).
          split; [by exists d|done].
        + intros Hown. destruct (Hown i eq_refl Hz) as ((d & Hd & <- & Hu) & Hi).
          exists d. split; [done|]. by apply Hdocs.
      - split; [|done]. intros _ ? [= <-] ?. done. }
    assert (Is_true (match input ≫= lj_status with
                     | Some status => bool_decide (job_status j = status)
                     | None => true
                     end)
            ↔ ∀ status, input ≫= lj_status = Some status → job_status j = status)
      as ->.
    { destruct (input ≫= lj_status) as [st|]; [|by split].
      rewrite bool_decide_spec. split; [by intros -> ? [= <-]|by intros H; apply H]. }
    tauto.
Qed.

(** The summaries the caller can read back. *)
Lemma returning_mine uid db :
  (∀ s, s ∈ rows (NoteSummaries db) → sum_ownerId s = uid → safe_lengths s) →
  returning (filter (λ s, sum_ownerId s = uid) (rows (NoteSummaries db)))
  = Ok (filter (λ s, sum_ownerId s = uid) (rows (NoteSummaries db))).
Proof.
  intros Hsafe. apply returning_safe.
  intros s [Hu Hs]%list_elem_of_filter. by apply Hsafe.
Qed.

(** X8. When every summary of the caller has lengths the client can hand
    out as numbers, List Summaries without a [documentId] (absent input,
    absent key, or 0) returns exactly the caller's summaries whose
    document is one of the caller's documents. *)
Theorem listSummaries_unfiltered (input : option ListSummariesInput)
    (uid : string) (db : Db) :
  truthy (input ≫= ls_documentId) = false →
  (∀ s, s ∈ rows (NoteSummaries db) → sum_ownerId s = uid → safe_lengths s) →
  ∃ l, listSummaries input (signed_in uid) db = (Ok l, db)
       ∧ ∀ s, s ∈ l ↔
           s ∈ rows (NoteSummaries db) ∧ sum_ownerId s = uid
           ∧ owns uid db (sum_documentId s).
Proof.
  intros Hf Hsafe.
  destruct (listSummaries_cases input uid db) as [(_ & Ht & _)|(l & Hok & _ & Hspec)].
  - rewrite Hf in Ht. done.
  - rewrite returning_mine in Hok by done.
    exists l. split; [done|]. intros s. rewrite Hspec, Hf. unfold Is_true. tauto.
Qed.

(** X9. When every summary of the caller has lengths the client can hand
    out as numbers, List Summaries with the id of a document the caller
    owns returns exactly the caller's summaries of that document. *)
Theorem listSummaries_of_document (uid : string) (documentId : Z) (db : Db) :
  documentId ≠ 0 →
  owns uid db documentId →
  (∀ s, s ∈ rows (NoteSummaries db) → sum_ownerId s = uid → safe_lengths s) →
  ∃ l, listSummaries (Some {| ls_documentId := Some documentId |}) (signed_in uid) db
       = (Ok l, db)
       ∧ ∀ s, s ∈ l ↔
           s ∈ rows (NoteSummaries db) ∧ sum_ownerId s = uid
           ∧ sum_documentId s = documentId.
Proof.
  intros Hnz (d & Hd & Hid & Hu) Hsafe.
  assert (truthy (Some documentId) = true) as Ht
    by (simpl; by rewrite bool_decide_eq_true_2).
  destruct (listSummaries_cases (Some {| ls_documentId := Some documentId |}) uid db)
    as [(_ & _ & Hno)|(l & Hok & _ & Hspec)]; simpl in *.
  - destruct (Hno d Hd); [by rewrite Hid|done].
  - rewrite returning_mine in Hok by done.
    exists l. split; [done|]. intros s. rewrite Hspec, bool_decide_eq_true_2 by done.
    split.
    + intros (? & ? & _ & Hs). split_and!; [done..|]. specialize (Hs I). congruence.
    + intros (? & ? & ->). split_and!; [done..|by exists d|done].
Qed.

(** X26. One summary of the caller with a length of 2^53 or more (one the
    input schema lets through) makes List Summaries throw the client's
    RangeError, whenever it does not fail NOT_FOUND: without a
    [documentId], and with the id of any document of the caller, also one
    the summary does not belong to. *)
Theorem listSummaries_unreadable (input : option ListSummariesInput)
    (uid : string) (db : Db) (s : NoteSummary) :
  s ∈ rows (NoteSummaries db) →
  sum_ownerId s = uid →
  unsafe_length (sum_originalLength s) ∨ unsafe_length (sum_summaryLength s) →
  (∀ i, input ≫= ls_documentId = Some i → i ≠ 0 → owns uid db i) →
  listSummaries input (signed_in uid) db = (Uncaught RangeError, db).
Proof.
  intros Hs Hu Hunsafe Hown.
  destruct (listSummaries_cases input uid db) as [(_ & Ht & Hno)|(l & Hok & _)].
  - destruct (input ≫= ls_documentId) as [i|] eqn:Hi; [|done]. simpl in Ht.
    apply bool_decide_unpack in Ht.
    destruct (Hown i eq_refl Ht) as (d & Hd & Hid & Hdu).
    destruct (Hno d Hd); [by rewrite Hid|done].
  - rewrite (returning_unsafe _ s) in Hok; [done| |done].
    by apply list_elem_of_filter.
Qed.

(** ** List Jobs *)

(** X10. List Jobs without a [documentId] returns exactly the caller's
    jobs that pass the status filter, if there is one, and whose
    [documentId] is [null], 0, or one of the caller's documents. *)
Theorem listJobs_unfiltered (input : option ListJobsInput) (uid : string) (db : Db) :
  truthy (input ≫= lj_documentId) = false →
  ∃ l, listJobs input (signed_in uid) db = (Ok l, db)
       ∧ ∀ j, j ∈ l ↔
           j ∈ rows (SummaryJobs db) ∧ job_ownerId j = uid
           ∧ (∀ status, input ≫= lj_status = Some status → job_status j = status)
           ∧ (∀ i, job_documentId j = Some i → i ≠ 0 → owns uid db i).
Proof.
  intros Hf.
  destruct (listJobs_cases input uid db) as [(_ & Ht & _)|(l & Hok & _ & Hspec)].
  - rewrite Hf in Ht. done.
  - exists l. split; [done|]. intros j. rewrite Hspec, Hf. unfold Is_true.
    split; intros (? & ? & ? & Hd); split_and!; try done.
    + intros i Hi Hz. by destruct (Hd i Hi Hz).
    + intros i Hi Hz. split; [by apply Hd|done].
Qed.

(** X11. List Jobs with the id of a document the caller owns returns the
    caller's jobs on that document and, with them, the caller's jobs that
    have no document ([documentId] [null] or 0); the status filter, if
    there is one, applies to both. *)
Theorem listJobs_of_document (uid : string) (documentId : Z)
    (status : option JobStatus) (db : Db) :
  documentId ≠ 0 →
  owns uid db documentId →
  ∃ l, listJobs (Some {| lj_documentId := Some documentId; lj_status := status |})
         (signed_in uid) db = (Ok l, db)
       ∧ ∀ j, j ∈ l ↔
           j ∈ rows (SummaryJobs db) ∧ job_ownerId j = uid
           ∧ (∀ st, status = Some st → job_status j = st)
           ∧ (job_documentId j = Some documentId
              ∨ job_documentId j = None ∨ job_documentId j = Some 0).
Proof.
  intros Hnz (d & Hd & Hid & Hu).
  destruct (listJobs_cases
              (Some {| lj_documentId := Some documentId; lj_status := status |}) uid db)
    as [(_ & _ & Hno)|(l & Hok & _ & Hspec)]; simpl in *.
  - destruct (Hno d Hd); [by rewrite Hid|done].
  - exists l. split; [done|]. intros j. rewrite Hspec, bool_decide_eq_true_2 by done.
    split.
    + intros (? & ? & ? & Hdoc). split_and!; [done..|].
      destruct (job_documentId j) as [i|]; [|by right; left].
      destruct (decide (i = 0)) as [->|Hi]; [by right; right|left].
      destruct (Hdoc i eq_refl Hi) as [_ Heq]. by rewrite Heq.
    + intros (? & ? & ? & Hdoc). split_and!; [done..|].
      intros i Hi Hz. destruct Hdoc as [Hj|[Hj|Hj]]; rewrite Hj in Hi;
        simplify_eq; try done. split; [by exists d|done].
Qed.

(** X12. List Jobs with a [documentId] other than 0 that names no document
    of the caller fails NOT_FOUND, whatever the status filter. *)
Theorem listJobs_not_owned (uid : string) (documentId : Z)
    (status : option JobStatus) (db : Db) :
  documentId ≠ 0 →
  (∀ d, d ∈ rows (NotesDocuments db) → doc_id d = documentId → doc_ownerId d ≠ uid) →
  listJobs (Some {| lj_documentId := Some documentId; lj_status := status |})
    (signed_in uid) db
  = (ActionError NOT_FOUND "Document not found.", db).
Proof.
  intros Hnz Hno.
  destruct (listJobs_cases
              (Some {| lj_documentId := Some documentId; lj_status := status |}) uid db)
    as [(Herr & _)|(l & _ & Hown & _)]; simpl in *; [done|].
  rewrite bool_decide_eq_true_2 in Hown by done.
  destruct (Hown I) as (i & [= <-] & d & Hd & Hid & Hu). by destruct (Hno d Hd Hid).
Qed.

(* ------------------------------------------------------------------ *)
(** * Creating summaries and jobs *)
(* ------------------------------------------------------------------ *)

(** The scoped lookup of an owned document finds a document of the
    caller with that id. *)
Lemma lookup_owns uid db (i : Z) :
  owns uid db i →
  ∃ d, head (take 1 (filter (λ d, doc_id d = i ∧ doc_ownerId d = uid)
                       (rows (NotesDocuments db)))) = Some d.
Proof.
  intros (d & Hd & Hid & Hu). rewrite head_take1.
  destruct (filter _ _) as [|d' l] eqn:Hf; [|by exists d'].
  exfalso. by eapply (filter_nil_not_elem_of _ _ d); [exact Hf| |].
Qed.




(** X14. Create Job with a [documentId] other than 0 that names no
    document of the caller fails NOT_FOUND and inserts nothing. *)
Theorem createJob_not_owned (uid : string) input (documentId : Z) (now : Date) (db : Db) :
  cj_documentId input = Some documentId →
  documentId ≠ 0 →
  (∀ d, d ∈ rows (NotesDocuments db) → doc_id d = documentId → doc_ownerId d ≠ uid) →
  createJob input now (signed_in uid) db
  = (ActionError NOT_FOUND "Document not found.", db).
Proof.
  intros Hin Hnz Hno. run_handler. rewrite Hin. simpl.
  rewrite bool_decide_eq_true_2 by done. read.
  rewrite (filter_none (R:=NotesDocument)); [done|].
  intros d Hd [[= Hid] Hu]. by apply (Hno d).
Qed.

(** X15. A job that Create Job returns carries the caller as owner, the
    input's [documentId], and [summary] and [pending] where the input
    gives no type and no status; List Jobs without filters returns it to
    the caller right after. *)
Theorem created_job_listed (uid : string) input (now : Date) (db db' : Db)
    (job : SummaryJob) :
  createJob input now (signed_in uid) db = (Ok (Some job), db') →
  job_ownerId job = uid
  ∧ job_documentId job = cj_documentId input
  ∧ job_jobType job = default job_summary (cj_jobType input)
  ∧ job_status job = default pending (cj_status input)
  ∧ ∃ l, listJobs None (signed_in uid) db' = (Ok l, db') ∧ job ∈ l.
Proof.
  intros Hcreate.
  assert (job_ownerId job = uid
          ∧ job_documentId job = cj_documentId input
          ∧ job_jobType job = default job_summary (cj_jobType input)
          ∧ job_status job = default pending (cj_status input)
          ∧ job ∈ rows (SummaryJobs db')
          ∧ NotesDocuments db' = NotesDocuments db
          ∧ (truthy (cj_documentId input) →
             ∃ d, d ∈ rows (NotesDocuments db)
                  ∧ Some (doc_id d) = cj_documentId input ∧ doc_ownerId d = uid))
    as (Hu & Hdoc & Hty & Hst & Hin & Hdocs & Hchecked).
  { revert Hcreate. run_handler.
    destruct (truthy (cj_documentId input)) eqn:Ht; simpl; read.
    - rewrite head_take1. destruct (head _) as [d|] eqn:Hd; simpl; [|done].
      destruct (document_exists _ _); simpl; [|done]. read.
      intros [= <- <-]. simpl. split_and!; try done.
      + apply elem_of_app. right. by left.
      + intros _. apply head_filter_Some in Hd as (Hd & Hid & Hdu). by exists d.
    - destruct (document_exists _ _); simpl; [|done]. read.
      intros [= <- <-]. simpl. split_and!; try done.
      apply elem_of_app. right. by left. }
  split_and!; try done.
  destruct (listJobs_cases None uid db') as [(_ & Ht & _)|(l & Hok & _ & Hspec)];
    [done|].
  exists l. split; [done|]. apply Hspec. split_and!; try done.
  intros i Hi Hz. split; [|done].
  rewrite Hdoc in Hi. destruct Hchecked as (d & Hd & Hid & Hdu).
  { rewrite Hi. simpl. by rewrite bool_decide_eq_true_2. }
  exists d. rewrite Hdocs. split_and!; [done| |done]. congruence.
Qed.

(** X16. Update Job with an id that names no job of the caller fails
    NOT_FOUND and sets nothing, whatever [output] and [status] it
    brings. *)
Theorem updateJob_not_owned (uid : string) input (db : Db) :
  (∀ j, j ∈ rows (SummaryJobs db) → job_id j = uj_id input → job_ownerId j ≠ uid) →
  updateJob input (signed_in uid) db = (ActionError NOT_FOUND "Job not found.", db).
Proof.
  intros Hno. run_handler. read.
  pose proof (lookup_not_owned (R:=SummaryJob) _ _ uid Hno) as Hnone.
  simpl in Hnone. by rewrite Hnone.
Qed.

(** X17. Get Document With Summaries with an id that names no document of
    the caller fails NOT_FOUND, also when summaries with that
    [documentId] are stored; no summary is read out. *)
Theorem getDocumentWithSummaries_not_owned (uid : string) (id : Z) (db : Db) :
  (∀ d, d ∈ rows (NotesDocuments db) → doc_id d = id → doc_ownerId d ≠ uid) →
  getDocumentWithSummaries {| gd_id := id |} (signed_in uid) db
  = (ActionError NOT_FOUND "Document not found.", db).
Proof.
  intros Hno. run_handler. read.
  pose proof (lookup_not_owned (R:=NotesDocument) _ _ uid Hno) as Hnone.
  simpl in Hnone. by rewrite Hnone.
Qed.

(* ------------------------------------------------------------------ *)

(* ------------------------------------------------------------------ *)
(** * References to documents *)
(* ------------------------------------------------------------------ *)

(** The document of an id, when the caller owns one. *)
Lemma owns_unique uid db d :
  wf db → d ∈ rows (NotesDocuments db) → owns uid db (doc_id d) → doc_ownerId d = uid.
Proof.
  intros ((Hnd & _) & _) Hd (d' & Hd' & Hid & Hu).
  assert (d = d') as ->; [|done].
  by apply (id_unique (R:=NotesDocument) (rows (NotesDocuments db))).
Qed.

Lemma effect_owned_references uid db db' :
  wf db → owned_references db → effect uid db db' → owned_references db'.
Proof.
  intros Hwf [Hs Hj] Heff.
  assert (references_hold db) as Hrefs by apply Hwf.
  apply references_hold_iff in Hrefs as [Rs Rj].
  destruct Heff as [|d0 Hid Hu|set P ? Hset Hown|P ? Hown Hfree|s0 Hid Hu Hdoc
                    |j0 Hid Hu Hdoc|set P ? Hset Hown]; simpl.
  - done.
  - assert (∀ d, d ∈ rows (NotesDocuments db) → doc_id d ≠ doc_id d0) as Hfresh.
    { intros d Hd. pose proof (next_id_above (R:=NotesDocument) _ d Hd).
      simpl in *. lia. }
    split; simpl.
    + intros s d Hin [Hd|Hd]%elem_of_app Hdi; [by apply Hs|].
      apply list_elem_of_singleton in Hd. subst d.
      destruct (Rs s Hin) as (d1 & Hd1 & Hi1). destruct (Hfresh d1 Hd1). congruence.
    + intros j d Hin [Hd|Hd]%elem_of_app Hdi; [by apply Hj|].
      apply list_elem_of_singleton in Hd. subst d.
      destruct (Rj j _ Hin Hdi) as (d1 & Hd1 & Hi1). by destruct (Hfresh d1 Hd1).
  - split; simpl.
    + intros s d' Hin (d & -> & Hd)%list_elem_of_fmap Hdi.
      case_decide; [|by apply Hs].
      destruct (Hset d) as [Hi Ho]. rewrite Ho. apply Hs; [done..|congruence].
    + intros j d' Hin (d & -> & Hd)%list_elem_of_fmap Hdi.
      case_decide; [|by apply Hj].
      destruct (Hset d) as [Hi Ho]. rewrite Ho. apply Hj; [done..|congruence].
  - split; simpl.
    + intros s d Hin [_ Hd]%list_elem_of_filter Hdi. by apply Hs.
    + intros j d Hin [_ Hd]%list_elem_of_filter Hdi. by apply Hj.
  - split; simpl; [|done].
    intros s d [Hin|Hin]%elem_of_app Hd Hdi; [by apply Hs|].
    apply list_elem_of_singleton in Hin. subst s. rewrite Hu.
    apply (owns_unique uid db d); [done..|]. by rewrite Hdi.
  - split; simpl; [done|].
    intros j d [Hin|Hin]%elem_of_app Hd Hdi; [by apply Hj|].
    apply list_elem_of_singleton in Hin. subst j. rewrite Hu.
    apply (owns_unique uid db d); [done..|]. by apply Hdoc.
  - split; simpl; [done|].
    intros j' d (j & -> & Hin)%list_elem_of_fmap Hd Hdi.
    case_decide; [|by apply Hj].
    destruct (Hset j) as (_ & Ho & Hi). rewrite Ho. apply Hj; [done..|congruence].
Qed.

Lemma reachable_invariants calls :
  wf (run calls empty_db) ∧ owned_references (run calls empty_db).
Proof.
  assert (∀ db, wf db → owned_references db →
                wf (run calls db) ∧ owned_references (run calls db)) as Hrun.
  { unfold run. induction calls as [|call calls IH]; intros db Hwf Hown; [done|].
    simpl. destruct (after_effect call.2 call.1 db Hwf) as [uid Heff].
    apply IH; [by eapply effect_wf|by eapply effect_owned_references]. }
  apply Hrun; [apply wf_empty|].
  split; intros ? ? Hin; by apply elem_of_nil in Hin.
Qed.

(** X18. In every store the requests build from the empty one, every
    summary belongs to a document of the summary's owner, and every job
    with a [documentId] to a document of the job's owner. *)
Theorem references_stay_with_owner (calls : list (ActionAPIContext * Request)) :
  let db := run calls empty_db in
  (∀ s, s ∈ rows (NoteSummaries db) → owns (sum_ownerId s) db (sum_documentId s))
  ∧ (∀ j i, j ∈ rows (SummaryJobs db) → job_documentId j = Some i →
            owns (job_ownerId j) db i).
Proof.
  intros db. destruct (reachable_invariants calls) as [Hwf [Hs Hj]].
  fold db in Hwf, Hs, Hj.
  assert (references_hold db) as Hrefs by apply Hwf.
  apply references_hold_iff in Hrefs as [Rs Rj].
  split.
  - intros s Hin. destruct (Rs s Hin) as (d & Hd & Hid).
    exists d. split_and!; [done..|]. by apply Hs.
  - intros j i Hin Hi. destruct (Rj j i Hin Hi) as (d & Hd & Hid).
    exists d. split_and!; [done..|]. apply Hj; [done..|]. by rewrite Hid.
Qed.

(* ------------------------------------------------------------------ *)
(** * What a caller gets to see *)
(* ------------------------------------------------------------------ *)

Lemma owners_of_filter {R} (owner : R → string) (uid : string) (l : list R)
    (P : R → Prop) `{!∀ r, Decision (P r)} :
  (∀ r, r ∈ l → P r → owner r = uid) →
  Forall (λ o, o = uid) (owner <$> filter P l).
Proof.
  intros Hown. apply Forall_fmap, Forall_forall.
  intros r [HP Hr]%list_elem_of_filter. simpl. by apply Hown.
Qed.

Lemma owners_of_head {R} (owner : R → string) (uid : string) (l : list R) :
  Forall (λ o, o = uid) (owner <$> l) →
  Forall (λ o, o = uid) (owner <$> option_list (head l)).
Proof. destruct l as [|r l]; simpl; [done|]. intros [? _]%Forall_cons. by constructor. Qed.

(** What the client hands back is what the statement selected. *)
Lemma returning_Ok {R} `{Row R} (l l' : list R) : returning l = Ok l' → l' = l.
Proof. unfold returning. destruct (forallb _ _); congruence. Qed.

(** X19. In every store the requests build from the empty one, whatever a
    signed-in caller requests, each row in the result (a document, a
    summary, a job, or a list of them) has the caller as [ownerId]. That
    holds for the summaries Get Document With Summaries selects by
    [documentId] alone, and for the row Update Job updates by [id]
    alone. *)
Theorem results_carry_own_rows (calls : list (ActionAPIContext * Request))
    (req : Request) (uid : string) :
  Forall (λ owner, owner = uid)
    (result_owners (server req (signed_in uid) (run calls empty_db)).1).
Proof.
  destruct (reachable_invariants calls) as [Hwf [Hfollow _]].
  set (db := run calls empty_db) in *.
  destruct req; run_handler; read.
  - by repeat constructor.
  - rewrite head_take1. destruct (head _) as [existing|] eqn:Hex; simpl; [|done].
    case_bool_decide; simpl.
    + apply head_filter_Some in Hex as (_ & _ & Hu). by repeat constructor.
    + read. apply owners_of_head. rewrite <- list_fmap_compose.
      apply owners_of_filter. intros d _ [_ Hu]. simpl.
      by destruct (set_document_keys (ud_updateData input ++ [set_updatedAt now]) d)
        as (_ & -> & _).
  - destruct (existsb _ _); simpl; [done|]. read.
    destruct (head _) as [deleted|] eqn:Hex; simpl; [|done].
    apply head_filter_Some in Hex as (_ & _ & Hu). by repeat constructor.
  - apply owners_of_filter. by intros d _ Hu.
  - rewrite head_take1. destruct (head _) as [document|] eqn:Hex; simpl; [|done].
    apply head_filter_Some in Hex as (Hd & Hid & Hu).
    destruct (returning _) as [summaries| |] eqn:Hread; simpl; [|done..].
    apply returning_Ok in Hread. subst summaries.
    constructor; [done|]. apply owners_of_filter. intros s Hs Hsid.
    rewrite <- Hu. symmetry. apply (Hfollow s document Hs Hd). congruence.
  - rewrite head_take1. destruct (head _); simpl; [|done].
    destruct (bool_decide _); simpl; [|done].
    destruct (returning _) as [inserted| |] eqn:Hread; simpl; [|done..].
    apply returning_Ok in Hread. subst inserted. by repeat constructor.
  - destruct (truthy _); simpl; [case_bool_decide; simpl; [done|]|];
      (destruct (returning _) as [mine| |] eqn:Hread; simpl; [|done..]);
      apply returning_Ok in Hread; subst mine;
      apply owners_of_filter; by intros s [? _]%list_elem_of_filter _.
  - destruct (truthy _); simpl; read;
      [rewrite head_take1; destruct (head _); simpl; [|done]|];
      (destruct (document_exists _ _); simpl; [|done]); read;
      by repeat constructor.
  - rewrite head_take1. destruct (head _) as [existing|] eqn:Hex; simpl; [|done].
    apply head_filter_Some in Hex as (Hin & Hid & Hu).
    case_bool_decide; simpl; [by repeat constructor|]. read.
    apply owners_of_head. rewrite <- list_fmap_compose.
    apply owners_of_filter. intros j Hj Hjid. simpl.
    destruct (set_job_keys (uj_updateData input) j) as (_ & -> & _).
    assert (j = existing) as ->; [|done].
    apply (id_unique (R:=SummaryJob) (rows (SummaryJobs db))); [apply Hwf|done..|].
    simpl. congruence.
  - destruct (truthy _); simpl; [case_bool_decide; simpl; [done|]|]; read;
      apply owners_of_filter; by intros j [? _]%list_elem_of_filter _.
Qed.
(* ------------------------------------------------------------------ *)
(** * What no request changes *)
(* ------------------------------------------------------------------ *)

Lemma summaries_prefix_after req context db :
  rows (NoteSummaries db) `prefix_of` rows (NoteSummaries (after req context db)).
Proof.
  destruct (context_cases context) as [[uid ->]|Hsame]; [|by rewrite Hsame].
  destruct req; run_handler; read.
  - done.
  - rewrite head_take1. destruct (head _); simpl; [case_bool_decide|]; simpl; by read.
  - destruct (existsb _ _); simpl; [done|]. read. by destruct (head _).
  - done.
  - rewrite head_take1. destruct (head _); simpl; [|done]. by destruct (returning _).
  - rewrite head_take1. destruct (head _); simpl; [|done].
    destruct (bool_decide _); simpl; [|done].
    destruct (returning _); simpl; by apply prefix_app_r.
  - destruct (truthy _); simpl; [case_bool_decide; simpl; [done|]|];
      by destruct (returning _).
  - destruct (truthy _); simpl; read;
      [rewrite head_take1; destruct (head _); simpl; [|done]|];
      (destruct (document_exists _ _); simpl; [|done]); by read.
  - rewrite head_take1. destruct (head _); simpl; [case_bool_decide|]; simpl; by read.
  - destruct (truthy _); simpl; [case_bool_decide|]; simpl; by read.
Qed.

(** X21. Summaries are append-only: no sequence of requests changes,
    removes or reorders a stored summary; the table after the requests
    starts with the table before them. *)
Theorem summaries_are_append_only (calls : list (ActionAPIContext * Request)) (db : Db) :
  rows (NoteSummaries db) `prefix_of` rows (NoteSummaries (run calls db)).
Proof.
  unfold run. revert db.
  induction calls as [|call calls IH]; intros db; [done|].
  simpl. etrans; [apply summaries_prefix_after|apply IH].
Qed.

Lemma jobs_prefix_after req context db :
  (job_request <$> rows (SummaryJobs db))
    `prefix_of` (job_request <$> rows (SummaryJobs (after req context db))).
Proof.
  destruct (context_cases context) as [[uid ->]|Hsame]; [|by rewrite Hsame].
  destruct req; run_handler; read.
  - done.
  - rewrite head_take1. destruct (head _); simpl; [case_bool_decide|]; simpl; by read.
  - destruct (existsb _ _); simpl; [done|]. read. by destruct (head _).
  - done.
  - rewrite head_take1. destruct (head _); simpl; [|done]. by destruct (returning _).
  - rewrite head_take1. destruct (head _); simpl; [|done].
    destruct (bool_decide _); simpl; [|done]. by destruct (returning _).
  - destruct (truthy _); simpl; [case_bool_decide; simpl; [done|]|];
      by destruct (returning _).
  - destruct (truthy _); simpl; read;
      [rewrite head_take1; destruct (head _); simpl; [|done]|];
      (destruct (document_exists _ _); simpl; [|done]); read;
      rewrite fmap_app; by apply prefix_app_r.
  - rewrite head_take1. destruct (head _); simpl; [case_bool_decide; simpl|];
      try done. read.
    rewrite <- list_fmap_compose.
    erewrite list_fmap_ext; [done|]. intros i j _. simpl.
    case_decide; [|done]. unfold job_request.
    by destruct (set_job_keys (uj_updateData input) j)
      as (-> & -> & -> & -> & -> & ->).
  - destruct (truthy _); simpl; [case_bool_decide|]; simpl; by read.
Qed.

(** X22. What a job records of its request ([id], [documentId],
    [ownerId], [jobType], [input], [createdAt]) is never changed, and jobs
    are neither removed nor reordered: on these columns the job table
    after any requests starts with the job table before them. *)
Theorem jobs_keep_their_request (calls : list (ActionAPIContext * Request)) (db : Db) :
  (job_request <$> rows (SummaryJobs db))
    `prefix_of` (job_request <$> rows (SummaryJobs (run calls db))).
Proof.
  unfold run. revert db.
  induction calls as [|call calls IH]; intros db; [done|].
  simpl. etrans; [apply jobs_prefix_after|apply IH].
Qed.


(* ------------------------------------------------------------------ *)
(** * Two ways to the summaries of a document *)
(* ------------------------------------------------------------------ *)

(** X23. In every store the requests build from the empty one, for a
    document the caller owns, and when the caller's summaries have lengths
    the client can hand out as numbers, Get Document With Summaries (which
    selects the summaries by [documentId] alone) and List Summaries with
    that [documentId] (which selects by owner and by document) both
    succeed and return the same summaries. *)
Theorem get_and_list_agree (calls : list (ActionAPIContext * Request))
    (uid : string) (id : Z) :
  let db := run calls empty_db in
  owns uid db id →
  (∀ s, s ∈ rows (NoteSummaries db) → sum_ownerId s = uid → safe_lengths s) →
  ∃ document summaries l,
    getDocumentWithSummaries {| gd_id := id |} (signed_in uid) db
    = (Ok (document, summaries), db)
    ∧ listSummaries (Some {| ls_documentId := Some id |}) (signed_in uid) db
      = (Ok l, db)
    ∧ ∀ s, s ∈ summaries ↔ s ∈ l.
Proof.
  intros db Hown Hsafe.
  destruct (reachable_invariants calls) as [Hwf [Hfollow _]].
  fold db in Hwf, Hfollow.
  destruct (lookup_owns uid db id Hown) as [document Hdoc].
  destruct Hown as (d & Hd & Hid & Hu).
  assert (id ≠ 0) as Hnz.
  { destruct Hwf as ((_ & Hpos) & _). rewrite Forall_forall in Hpos.
    specialize (Hpos d Hd). simpl in Hpos. lia. }
  assert (∀ s, s ∈ rows (NoteSummaries db) → sum_documentId s = id →
               sum_ownerId s = uid) as Hmine.
  { intros s Hs Hsid. rewrite <- Hu. symmetry. apply (Hfollow s d Hs Hd). congruence. }
  destruct (listSummaries_cases (Some {| ls_documentId := Some id |}) uid db)
    as [(_ & _ & Hno)|(l & Hok & _ & Hspec)].
  { destruct (Hno d Hd); [simpl; by rewrite Hid|done]. }
  rewrite returning_mine in Hok by done.
  eexists document, _, l. split_and!; [|exact Hok|].
  - run_handler. read. rewrite Hdoc. simpl.
    rewrite returning_safe; [done|].
    intros s [Hsid Hs]%list_elem_of_filter. apply Hsafe; [done|]. by apply Hmine.
  - intros s. rewrite Hspec, list_elem_of_filter. simpl.
    rewrite bool_decide_eq_true_2 by done.
    split.
    + intros [Hsid Hs]. split_and!; [done|by apply Hmine|
                                     exists d; split_and!; congruence|
                                     intros _; congruence].
    + intros (Hs & _ & _ & Hsid). split; [|done]. specialize (Hsid I). congruence.
Qed.
(** * The further properties at the sample store *)
(* ------------------------------------------------------------------ *)

Lemma updateDocument_merges_witness :
  wf sample_db
  ∧ alice_meeting ∈ rows (NotesDocuments sample_db)
  ∧ doc_id alice_meeting = ud_id rename_meeting
  ∧ doc_ownerId alice_meeting = "alice"
  ∧ ud_updateData rename_meeting ≠ []
  ∧ updateDocument rename_meeting 9000 (signed_in "alice") sample_db
    = (Ok (Some renamed_meeting),
       MkDb (MkTable ((λ d, if decide (doc_id d = doc_id alice_meeting)
                            then renamed_meeting else d)
                        <$> rows (NotesDocuments sample_db)))
            (NoteSummaries sample_db) (SummaryJobs sample_db)).
Proof.
  assert (alice_meeting ∈ rows (NotesDocuments sample_db)) as Hin
    by (vm_compute; constructor).
  split_and!; [by_evaluation|exact Hin|reflexivity|reflexivity|done|].
  apply (updateDocument_merges "alice" rename_meeting 9000 sample_db alice_meeting);
    [by_evaluation|exact Hin|reflexivity|reflexivity|done].
Defined.

Lemma updateDocument_not_owned_witness :
  (∀ d, d ∈ rows (NotesDocuments sample_db) →
        doc_id d = ud_id rename_meeting → doc_ownerId d ≠ "bob")
  ∧ updateDocument rename_meeting 9000 (signed_in "bob") sample_db
    = (ActionError NOT_FOUND "Document not found.", sample_db).
Proof.
  assert (∀ d, d ∈ rows (NotesDocuments sample_db) →
               doc_id d = ud_id rename_meeting → doc_ownerId d ≠ "bob") as Hno
    by by_rows.
  split; [exact Hno|].
  apply (updateDocument_not_owned "bob" rename_meeting 9000 sample_db). exact Hno.
Defined.

Lemma plain_db_no_dependents (id : Z) : ¬ has_dependents plain_db id.
Proof.
  intros [(s & Hs & _)|(j & Hj & _)]; vm_compute in Hs || vm_compute in Hj;
    by eapply elem_of_nil.
Qed.

Lemma deleteDocument_owned_witness :
  wf plain_db
  ∧ alice_meeting ∈ rows (NotesDocuments plain_db)
  ∧ doc_ownerId alice_meeting = "alice"
  ∧ ¬ has_dependents plain_db (doc_id alice_meeting)
  ∧ deleteDocument {| dd_id := doc_id alice_meeting |} (signed_in "alice") plain_db
    = (Ok alice_meeting,
       MkDb (MkTable (filter (λ d, doc_id d ≠ doc_id alice_meeting)
                        (rows (NotesDocuments plain_db))))
            (NoteSummaries plain_db) (SummaryJobs plain_db)).
Proof.
  assert (alice_meeting ∈ rows (NotesDocuments plain_db)) as Hin
    by (vm_compute; constructor).
  split_and!; [by_evaluation|exact Hin|reflexivity|apply plain_db_no_dependents|].
  apply (deleteDocument_owned "alice" plain_db alice_meeting);
    [by_evaluation|exact Hin|reflexivity|apply plain_db_no_dependents].
Defined.

Lemma deleteDocument_with_dependents_witness :
  alice_meeting ∈ rows (NotesDocuments sample_db)
  ∧ doc_ownerId alice_meeting = "alice"
  ∧ has_dependents sample_db (doc_id alice_meeting)
  ∧ deleteDocument {| dd_id := doc_id alice_meeting |} (signed_in "alice") sample_db
    = (Uncaught SQLITE_CONSTRAINT_FOREIGNKEY, sample_db).
Proof.
  assert (alice_meeting ∈ rows (NotesDocuments sample_db)) as Hin
    by (vm_compute; constructor).
  assert (has_dependents sample_db (doc_id alice_meeting)) as Hdep.
  { left. exists alice_summary. split; [vm_compute; constructor|reflexivity]. }
  split_and!; [exact Hin|reflexivity|exact Hdep|].
  apply (deleteDocument_with_dependents "alice" sample_db alice_meeting);
    [exact Hin|reflexivity|exact Hdep].
Defined.

Lemma deleted_document_not_found_witness :
  wf plain_db
  ∧ alice_meeting ∈ rows (NotesDocuments plain_db)
  ∧ doc_ownerId alice_meeting = "alice"
  ∧ ¬ has_dependents plain_db (doc_id alice_meeting)
  ∧ let id := doc_id alice_meeting in
    let db' := after (DeleteDocument {| dd_id := id |}) (signed_in "alice") plain_db in
    ∀ v : string,
      getDocumentWithSummaries {| gd_id := id |} (signed_in v) db'
      = (ActionError NOT_FOUND "Document not found.", db')
      ∧ deleteDocument {| dd_id := id |} (signed_in v) db'
        = (ActionError NOT_FOUND "Document not found.", db')
      ∧ (∀ input now, ud_id input = id →
           updateDocument input now (signed_in v) db'
           = (ActionError NOT_FOUND "Document not found.", db'))
      ∧ (∀ input now, cs_documentId input = id →
           createSummary input now (signed_in v) db'
           = (ActionError NOT_FOUND "Document not found.", db')).
Proof.
  assert (alice_meeting ∈ rows (NotesDocuments plain_db)) as Hin
    by (vm_compute; constructor).
  split_and!; [by_evaluation|exact Hin|reflexivity|apply plain_db_no_dependents|].
  apply (deleted_document_not_found "alice" plain_db alice_meeting);
    [by_evaluation|exact Hin|reflexivity|apply plain_db_no_dependents].
Defined.

Lemma listSummaries_unfiltered_witness :
  truthy (None ≫= ls_documentId) = false
  ∧ (∀ s, s ∈ rows (NoteSummaries sample_db) → sum_ownerId s = "alice" → safe_lengths s)
  ∧ ∃ l, listSummaries None (signed_in "alice") sample_db = (Ok l, sample_db)
         ∧ ∀ s, s ∈ l ↔
             s ∈ rows (NoteSummaries sample_db) ∧ sum_ownerId s = "alice"
             ∧ owns "alice" sample_db (sum_documentId s).
Proof.
  assert (∀ s, s ∈ rows (NoteSummaries sample_db) → sum_ownerId s = "alice" →
               safe_lengths s) as Hsafe by by_lengths.
  split_and!; [reflexivity|exact Hsafe|].
  apply (listSummaries_unfiltered None "alice" sample_db); [reflexivity|exact Hsafe].
Defined.

Lemma listSummaries_of_document_witness :
  1 ≠ 0
  ∧ owns "alice" sample_db 1
  ∧ (∀ s, s ∈ rows (NoteSummaries sample_db) → sum_ownerId s = "alice" → safe_lengths s)
  ∧ ∃ l, listSummaries (Some {| ls_documentId := Some 1 |}) (signed_in "alice") sample_db
         = (Ok l, sample_db)
         ∧ ∀ s, s ∈ l ↔
             s ∈ rows (NoteSummaries sample_db) ∧ sum_ownerId s = "alice"
             ∧ sum_documentId s = 1.
Proof.
  assert (owns "alice" sample_db 1) as Hown by by_owner alice_meeting.
  assert (∀ s, s ∈ rows (NoteSummaries sample_db) → sum_ownerId s = "alice" →
               safe_lengths s) as Hsafe by by_lengths.
  split_and!; [lia|exact Hown|exact Hsafe|].
  apply (listSummaries_of_document "alice" 1 sample_db); [lia|exact Hown|exact Hsafe].
Defined.

Lemma listSummaries_unreadable_witness :
  alice_long_summary ∈ rows (NoteSummaries poisoned_db)
  ∧ sum_ownerId alice_long_summary = "alice"
  ∧ (unsafe_length (sum_originalLength alice_long_summary)
     ∨ unsafe_length (sum_summaryLength alice_long_summary))
  ∧ (∀ i, Some {| ls_documentId := Some 1 |} ≫= ls_documentId = Some i → i ≠ 0 →
          owns "alice" poisoned_db i)
  ∧ listSummaries (Some {| ls_documentId := Some 1 |}) (signed_in "alice") poisoned_db
    = (Uncaught RangeError, poisoned_db).
Proof.
  assert (alice_long_summary ∈ rows (NoteSummaries poisoned_db)) as Hin
    by (vm_compute; do 2 constructor).
  assert (unsafe_length (sum_originalLength alice_long_summary)
          ∨ unsafe_length (sum_summaryLength alice_long_summary)) as Hun.
  { left. exists (2 ^ 53). split; [reflexivity|lia]. }
  assert (∀ i, Some {| ls_documentId := Some 1 |} ≫= ls_documentId = Some i → i ≠ 0 →
               owns "alice" poisoned_db i) as Hown.
  { intros i [= <-] _. by_owner alice_meeting. }
  split_and!; [exact Hin|reflexivity|exact Hun|exact Hown|].
  apply (listSummaries_unreadable (Some {| ls_documentId := Some 1 |}) "alice"
           poisoned_db alice_long_summary); [exact Hin|reflexivity|exact Hun|exact Hown].
Defined.

Lemma listSummaries_not_owned_witness :
  2 ≠ 0
  ∧ (∀ d, d ∈ rows (NotesDocuments sample_db) → doc_id d = 2 → doc_ownerId d ≠ "alice")
  ∧ listSummaries (Some {| ls_documentId := Some 2 |}) (signed_in "alice") sample_db
    = (ActionError NOT_FOUND "Document not found.", sample_db).
Proof.
  assert (∀ d, d ∈ rows (NotesDocuments sample_db) → doc_id d = 2 →
               doc_ownerId d ≠ "alice") as Hno by by_rows.
  split_and!; [lia|exact Hno|].
  apply (listSummaries_not_owned "alice" 2 sample_db); [lia|exact Hno].
Defined.

Lemma listJobs_unfiltered_witness :
  truthy (Some {| lj_documentId := Some 0; lj_status := Some failed |} ≫= lj_documentId)
  = false
  ∧ ∃ l, listJobs (Some {| lj_documentId := Some 0; lj_status := Some failed |})
           (signed_in "bob") sample_db = (Ok l, sample_db)
         ∧ ∀ j, j ∈ l ↔
             j ∈ rows (SummaryJobs sample_db) ∧ job_ownerId j = "bob"
             ∧ (∀ status,
                  Some {| lj_documentId := Some 0; lj_status := Some failed |}
                    ≫= lj_status = Some status → job_status j = status)
             ∧ (∀ i, job_documentId j = Some i → i ≠ 0 → owns "bob" sample_db i).
Proof.
  split; [reflexivity|].
  apply (listJobs_unfiltered
           (Some {| lj_documentId := Some 0; lj_status := Some failed |})
           "bob" sample_db).
  reflexivity.
Defined.

Lemma listJobs_of_document_witness :
  2 ≠ 0
  ∧ owns "bob" sample_db 2
  ∧ ∃ l, listJobs (Some {| lj_documentId := Some 2; lj_status := Some failed |})
           (signed_in "bob") sample_db = (Ok l, sample_db)
         ∧ ∀ j, j ∈ l ↔
             j ∈ rows (SummaryJobs sample_db) ∧ job_ownerId j = "bob"
             ∧ (∀ st, Some failed = Some st → job_status j = st)
             ∧ (job_documentId j = Some 2
                ∨ job_documentId j = None ∨ job_documentId j = Some 0).
Proof.
  assert (owns "bob" sample_db 2) as Hown.
  { exists bob_lecture. split_and!; [vm_compute; do 2 constructor|reflexivity..]. }
  split_and!; [lia|exact Hown|].
  apply (listJobs_of_document "bob" 2 (Some failed) sample_db); [lia|exact Hown].
Defined.

Lemma listJobs_not_owned_witness :
  2 ≠ 0
  ∧ (∀ d, d ∈ rows (NotesDocuments sample_db) → doc_id d = 2 → doc_ownerId d ≠ "alice")
  ∧ listJobs (Some {| lj_documentId := Some 2; lj_status := None |})
      (signed_in "alice") sample_db
    = (ActionError NOT_FOUND "Document not found.", sample_db).
Proof.
  assert (∀ d, d ∈ rows (NotesDocuments sample_db) → doc_id d = 2 →
               doc_ownerId d ≠ "alice") as Hno by by_rows.
  split_and!; [lia|exact Hno|].
  apply (listJobs_not_owned "alice" 2 None sample_db); [lia|exact Hno].
Defined.



Lemma createJob_not_owned_witness :
  cj_documentId job_on_lecture = Some 2
  ∧ 2 ≠ 0
  ∧ (∀ d, d ∈ rows (NotesDocuments sample_db) → doc_id d = 2 → doc_ownerId d ≠ "alice")
  ∧ createJob job_on_lecture 8000 (signed_in "alice") sample_db
    = (ActionError NOT_FOUND "Document not found.", sample_db).
Proof.
  assert (∀ d, d ∈ rows (NotesDocuments sample_db) → doc_id d = 2 →
               doc_ownerId d ≠ "alice") as Hno by by_rows.
  split_and!; [reflexivity|lia|exact Hno|].
  apply (createJob_not_owned "alice" job_on_lecture 2 8000 sample_db);
    [reflexivity|lia|exact Hno].
Defined.

Lemma created_job_listed_witness :
  let db' := (createJob job_on_meeting 8000 (signed_in "alice") sample_db).2 in
  createJob job_on_meeting 8000 (signed_in "alice") sample_db = (Ok (Some meeting_job), db')
  ∧ job_ownerId meeting_job = "alice"
  ∧ job_documentId meeting_job = cj_documentId job_on_meeting
  ∧ job_jobType meeting_job = default job_summary (cj_jobType job_on_meeting)
  ∧ job_status meeting_job = default pending (cj_status job_on_meeting)
  ∧ ∃ l, listJobs None (signed_in "alice") db' = (Ok l, db') ∧ meeting_job ∈ l.
Proof.
  intros db'.
  assert (createJob job_on_meeting 8000 (signed_in "alice") sample_db
          = (Ok (Some meeting_job), db')) as Hcreate by reflexivity.
  split; [exact Hcreate|].
  apply (created_job_listed "alice" job_on_meeting 8000 sample_db db' meeting_job).
  exact Hcreate.
Defined.

Lemma updateJob_not_owned_witness :
  (∀ j, j ∈ rows (SummaryJobs sample_db) →
        job_id j = uj_id retry_first_job → job_ownerId j ≠ "alice")
  ∧ updateJob retry_first_job (signed_in "alice") sample_db
    = (ActionError NOT_FOUND "Job not found.", sample_db).
Proof.
  assert (∀ j, j ∈ rows (SummaryJobs sample_db) →
               job_id j = uj_id retry_first_job → job_ownerId j ≠ "alice") as Hno
    by by_rows.
  split; [exact Hno|].
  apply (updateJob_not_owned "alice" retry_first_job sample_db). exact Hno.
Defined.

Lemma getDocumentWithSummaries_not_owned_witness :
  (∀ d, d ∈ rows (NotesDocuments sample_db) → doc_id d = 2 → doc_ownerId d ≠ "alice")
  ∧ getDocumentWithSummaries {| gd_id := 2 |} (signed_in "alice") sample_db
    = (ActionError NOT_FOUND "Document not found.", sample_db).
Proof.
  assert (∀ d, d ∈ rows (NotesDocuments sample_db) → doc_id d = 2 →
               doc_ownerId d ≠ "alice") as Hno by by_rows.
  split; [exact Hno|].
  apply (getDocumentWithSummaries_not_owned "alice" 2 sample_db). exact Hno.
Defined.

Lemma get_and_list_agree_witness :
  let db := run sample_calls empty_db in
  owns "alice" db 1
  ∧ (∀ s, s ∈ rows (NoteSummaries db) → sum_ownerId s = "alice" → safe_lengths s)
  ∧ ∃ document summaries l,
      getDocumentWithSummaries {| gd_id := 1 |} (signed_in "alice") db
      = (Ok (document, summaries), db)
      ∧ listSummaries (Some {| ls_documentId := Some 1 |}) (signed_in "alice") db
        = (Ok l, db)
      ∧ ∀ s, s ∈ summaries ↔ s ∈ l.
Proof.
  intros db.
  assert (owns "alice" db 1) as Hown by by_owner alice_meeting.
  assert (∀ s, s ∈ rows (NoteSummaries db) → sum_ownerId s = "alice" →
               safe_lengths s) as Hsafe by by_lengths.
  split_and!; [exact Hown|exact Hsafe|].
  apply (get_and_list_agree sample_calls "alice" 1); [exact Hown|exact Hsafe].
Defined.
